(** * Geospatial primer notebooks: a shallow embedding of the cells the
      specification talks about.

    The repository consists of Jupyter notebooks.  Every code cell is a short
    call into pandas, shapely, rasterio, geopandas or rioxarray.  The cells
    are embedded here as Rocq functions; the library calls they make are
    modelled next to them, each one marked as such. *)

From Stdlib Require Import ZArith QArith Qround Qminmax Lqa Lia OrdersEx.
From Stdlib Require Import Sorting.Sorted.
From stdpp Require Import gmap strings list.

Open Scope string_scope.
Open Scope list_scope.
Open Scope Z_scope.

(** ** Python exceptions and results *)

Inductive exn : Type :=
  | AssertionError (msg : string)
  | FileNotFoundError (path : string)
  | ParserError
  | KeyError (key : string)
  | TypeError
  | ValueError (msg : string)
  | ZeroDivisionError
  | NameError (name : string)
  | AttributeError
  | MissingCRS.

Inductive result (A : Type) : Type :=
  | Ok (a : A)
  | Raise (e : exn).
Arguments Ok {A} a.
Arguments Raise {A} e.

Definition bind {A B} (r : result A) (k : A -> result B) : result B :=
  match r with
  | Ok a => k a
  | Raise e => Raise e
  end.

Notation "'try' x <- r ; k" := (bind r (fun x => k))
  (at level 10, x name, r at level 100, k at level 200).

(** ** Cells that touch the file system

    A cell is run against the log of file-system calls made so far and
    extends it; an exception ends the run. *)

Inductive syscall : Type :=
  | Stat (path : string)
  | Open (path : string).

Definition io (A : Type) : Type := list syscall -> list syscall * result A.

Definition io_bind {A B} (c : io A) (k : A -> io B) : io B :=
  fun log =>
    match c log with
    | (log', Ok a) => k a log'
    | (log', Raise e) => (log', Raise e)
    end.

Notation "'run' x <- c ; k" := (io_bind c (fun x => k))
  (at level 10, x name, c at level 100, k at level 200).

(** The files on disk: path to content. *)
Abbreviation filesystem := (gmap string string).

(** [Path.exists()] *)
Definition path_exists (fs : filesystem) (path : string) : io bool :=
  fun log => (log ++ [Stat path], Ok (bool_decide (is_Some (fs !! path)))).

(** [assert cond, msg] *)
Definition py_assert (cond : bool) (msg : string) : io unit :=
  fun log => (log, if cond then Ok tt else Raise (AssertionError msg)).

(** ** 01-Pandas: tabular frames *)

Module Pandas.

(** A column is typed: labels (the [object] dtype read from a CSV) or
    numbers.  [None] is the missing value (NaN). *)
Inductive column : Type :=
  | Categorical (labels : list (option string))
  | Numeric (values : list (option Q)).

Abbreviation DataFrame := (gmap string column).

(** A group-by result: one row per key, keyed by label or by number. *)
Inductive grouped : Type :=
  | ByLabel (rows : list (string * option Q))
  | ByNumber (rows : list (Q * option Q)).

Section GroupBy.
Context {K V : Type} (cmp : K -> K -> comparison).

(** Modelled from the spec: pandas' [groupby] is not part of the
    repository sources.  Rows are partitioned by key; the groups are kept
    in key-sort order ([sort=True], the default) and every group keeps
    its rows in frame order. *)
Fixpoint add_to_group (k : K) (v : V) (gs : list (K * list V))
  : list (K * list V) :=
  match gs with
  | [] => [(k, [v])]
  | (k', vs) :: gs' =>
      match cmp k k' with
      | Lt => (k, [v]) :: (k', vs) :: gs'
      | Eq => (k', vs ++ [v]) :: gs'
      | Gt => (k', vs) :: add_to_group k v gs'
      end
  end.

(** The strict order the group keys are sorted by. *)
Definition key_lt (a b : K) : Prop := cmp a b = Lt.

(** Rows whose key is missing are dropped ([dropna=True], the default). *)
Definition add_row (gs : list (K * list V)) (kv : option K * V)
  : list (K * list V) :=
  match kv.1 with
  | Some k => add_to_group k kv.2 gs
  | None => gs
  end.

Definition split_groups (keys : list (option K)) (vals : list V)
  : list (K * list V) :=
  fold_left add_row (zip keys vals) [].

(** [SeriesGroupBy.aggregate f]: one output row per group. *)
Definition aggregate {R} (f : list V -> R) (gs : list (K * list V))
  : list (K * R) :=
  map (fun g => (g.1, f g.2)) gs.
End GroupBy.

(** Values that are present, in order ([skipna=True]). *)
Definition dropna (vs : list (option Q)) : list Q := omap id vs.

Definition total (qs : list Q) : Q := foldr Qplus 0%Q qs.

(** [Series.sum()]: missing values are skipped; the empty sum is 0. *)
Definition series_sum (vs : list (option Q)) : Q := total (dropna vs).

(** Python's true division of a number by a count, as a fraction in lowest
    terms; 0 as divisor gives NaN. *)
Definition truediv (s : Q) (n : nat) : option Q :=
  match n with
  | O => None
  | S _ => Some (Qred (s / inject_Z (Z.of_nat n)))
  end.

(** Modelled from the spec: pandas' [Series.mean()] is not part of the
    repository sources.  Missing values are skipped in the sum and in the
    count; a series without a value has mean NaN. *)
Definition series_mean (vs : list (option Q)) : option Q :=
  truediv (total (dropna vs)) (length (dropna vs)).

(** The notebook's [lambda grp: grp.sum() / len(grp)]. *)
Definition sum_over_len (grp : list (option Q)) : option Q :=
  truediv (series_sum grp) (length grp).

Definition getitem (df : DataFrame) (name : string) : result column :=
  match df !! name with
  | Some c => Ok c
  | None => Raise (KeyError name)
  end.

(** [df.groupby(by)[col].aggregate(f)] *)
Definition groupby_aggregate (f : list (option Q) -> option Q)
    (df : DataFrame) (by_ col : string) : result grouped :=
  try keys <- getitem df by_;
  try vals <- getitem df col;
  match vals with
  | Categorical _ => Raise TypeError
  | Numeric vs =>
      match keys with
      | Categorical ks =>
          Ok (ByLabel (aggregate f (split_groups String_as_OT.compare ks vs)))
      | Numeric ks =>
          Ok (ByNumber (aggregate f (split_groups Qcompare ks vs)))
      end
  end.

(** [df.groupby(by)[col].mean()] *)
Definition groupby_mean : DataFrame -> string -> string -> result grouped :=
  groupby_aggregate series_mean.

(** [df.groupby(by)[col].aggregate(lambda grp: grp.sum() / len(grp))] *)
Definition groupby_sum_over_len
  : DataFrame -> string -> string -> result grouped :=
  groupby_aggregate sum_over_len.

(** [series > x]: the comparison with a missing value is false. *)
Definition gt (c : column) (x : Q) : result (list bool) :=
  match c with
  | Numeric vs =>
      Ok (map (fun v => match v with
                        | Some q => negb (Qle_bool q x)
                        | None => false
                        end) vs)
  | Categorical _ => Raise TypeError
  end.

Fixpoint select {A} (mask : list bool) (l : list A) : list A :=
  match mask, l with
  | b :: mask', x :: l' =>
      if b then x :: select mask' l' else select mask' l'
  | _, _ => []
  end.

(** Modelled from the spec: pandas' boolean indexing [df[mask]] is not part
    of the repository sources.  It builds a frame with the rows where the
    mask is true. *)
Definition getitem_mask (df : DataFrame) (mask : list bool) : DataFrame :=
  (fun c => match c with
            | Categorical ls => Categorical (select mask ls)
            | Numeric vs => Numeric (select mask vs)
            end) <$> df.

Section Loader.
(** pandas' CSV parser, applied to the content of the file. *)
Variable parse : string -> result DataFrame.

(** [pd.read_csv(path)]: opens the file, then parses it. *)
Definition read_csv (fs : filesystem) (path : string) : io DataFrame :=
  fun log =>
    (log ++ [Open path],
     match fs !! path with
     | Some content => parse content
     | None => Raise (FileNotFoundError path)
     end).

(** The loading cells of the notebook, in order:
    [assert file_path.exists(), "The data file does not exist!"] and then
    [df = pd.read_csv(file_path)]. *)
Definition load (fs : filesystem) (file_path : string) : io DataFrame :=
  run found <- path_exists fs file_path;
  run _ <- py_assert found "The data file does not exist!";
  read_csv fs file_path.
End Loader.

Definition file_path : string := "./data/tabular/titanic.csv".

(** A small frame in the shape of the titanic data. *)
Definition titanic_sample : DataFrame :=
  <["Sex" := Categorical [Some "male"; Some "female"; Some "female"]]>
  (<["Age" := Numeric [Some 22; Some 38; Some 26]%Q]>
  (<["Survived" := Numeric [Some 0; Some 1; Some 1]%Q]> ∅)).

(** One passenger whose survival is not recorded. *)
Definition titanic_missing : DataFrame :=
  <["Sex" := Categorical [Some "male"; Some "male"]]>
  (<["Survived" := Numeric [Some 1%Q; None]]> ∅).

(** The number of rows of a column, and frames whose columns all have [n]
    rows. *)
Definition column_length (c : column) : nat :=
  match c with
  | Categorical ls => length ls
  | Numeric vs => length vs
  end.

Definition rectangular (df : DataFrame) (n : nat) : Prop :=
  forall name c, df !! name = Some c -> column_length c = n.

(** The test of [series > x] on one value. *)
Definition above (x : Q) (v : option Q) : bool :=
  match v with
  | Some q => negb (Qle_bool q x)
  | None => false
  end.

(** The filter cell as an expression: [df[df[col] > x]]. *)
Definition filter_gt (df : DataFrame) (col : string) (x : Q)
    : result DataFrame :=
  try c <- getitem df col;
  try mask <- gt c x;
  Ok (getitem_mask df mask).

(** A bound of a Python slice on a sequence of [n] items: a negative index
    counts from the end, and an index beyond either end is clamped. *)
Definition slice_bound (n : nat) (i : Z) : nat :=
  if (i <? 0)%Z then Z.to_nat (Z.max 0 (i + Z.of_nat n))
  else Nat.min (Z.to_nat i) n.

(** [l[start:stop]]; [None] is an omitted bound. *)
Definition py_slice {A} (start stop : option Z) (l : list A) : list A :=
  let n := length l in
  let lo := from_option (slice_bound n) 0%nat start in
  let hi := from_option (slice_bound n) n stop in
  take (hi - lo) (drop lo l).

(** [df[start:stop]]: the rows at those positions, in every column. *)
Definition slice_rows (start stop : option Z) (df : DataFrame) : DataFrame :=
  (fun c => match c with
            | Categorical ls => Categorical (py_slice start stop ls)
            | Numeric vs => Numeric (py_slice start stop vs)
            end) <$> df.

(** A value of a reduction: a number or a text. *)
Inductive scalar : Type :=
  | SNum (q : Q)
  | SStr (s : string).

(** [series == k] for a text [k]: a missing label and a number are not
    equal to it. *)
Definition eq_label (c : column) (k : string) : list bool :=
  match c with
  | Categorical ls =>
      map (fun l => match l with
                    | Some s => String.eqb s k
                    | None => false
                    end) ls
  | Numeric vs => map (fun _ => false) vs
  end.

(** [series.sum()] of a column: numbers are added, missing ones skipped;
    labels are concatenated, and a missing label cannot be added to a text. *)
Definition column_sum (c : column) : result scalar :=
  match c with
  | Numeric vs => Ok (SNum (series_sum vs))
  | Categorical ls =>
      match mapM id ls with
      | Some present => Ok (SStr (foldr String.append "" present))
      | None => Raise TypeError
      end
  end.

(** The body of the loop [for k in list("ABC")]:
    [df[df[key] == k][data].sum()]. *)
Definition filtered_sum (df : DataFrame) (key k data : string)
    : result scalar :=
  try kc <- getitem df key;
  try dc <- getitem (getitem_mask df (eq_label kc k)) data;
  column_sum dc.

(** The loop itself, with the printed pairs as its value. *)
Definition loop_sums (df : DataFrame) : list (string * result scalar) :=
  map (fun k => (k, filtered_sum df "key" k "data")) ["A"; "B"; "C"].

(** [df.groupby(by).sum()]: the numeric columns other than the key, summed
    per group. *)
Definition groupby_sum (df : DataFrame) (by_ : string)
    : result (gmap string grouped) :=
  try keys <- getitem df by_;
  Ok (omap (fun c =>
              match c with
              | Numeric vs =>
                  Some (match keys with
                        | Categorical ks =>
                            ByLabel
                              (aggregate (fun g => Some (series_sum g))
                                 (split_groups String_as_OT.compare ks vs))
                        | Numeric ks =>
                            ByNumber
                              (aggregate (fun g => Some (series_sum g))
                                 (split_groups Qcompare ks vs))
                        end)
              | Categorical _ => None
              end)
           (delete by_ df)).

(** [series.notna()] *)
Definition notna {A} (l : list (option A)) : list bool :=
  map (fun v => match v with Some _ => true | None => false end) l.

(** The values of the rows whose key is [k], in frame order. *)
Definition rows_of {K V} (cmp : K -> K -> comparison) (k : K)
    (kvs : list (option K * V)) : list V :=
  omap (fun kv => match kv.1 with
                  | Some k' =>
                      match cmp k' k with Eq => Some kv.2 | _ => None end
                  | None => None
                  end) kvs.

(** What a value adds to a sum: a missing value adds nothing. *)
Definition present (v : option Q) : Q := default 0%Q v.

(** The sum over the rows of a group-by result. *)
Definition sum_of_rows {K} (rows : list (K * option Q)) : Q :=
  total (omap snd rows).

(** The frame of the group-by cells. *)
Definition key_data : DataFrame :=
  <["key" := Categorical [Some "A"; Some "B"; Some "C"; Some "A"; Some "B";
                          Some "C"; Some "A"; Some "B"; Some "C"]]>
  (<["data" := Numeric [Some 0; Some 5; Some 10; Some 5; Some 10; Some 15;
                        Some 10; Some 15; Some 20]%Q]> ∅).

End Pandas.

(** ** 03-Shapely: planar geometry *)

Module Shapely.
Local Open Scope Q_scope.

(** Coordinates are exact rationals; every finite floating-point number is
    one, and the orientation tests below are the exact ones. *)
Abbreviation coord := (Q * Q)%type.

Definition Qleb (a b : Q) : bool := Qle_bool a b.
Definition Qltb (a b : Q) : bool := negb (Qle_bool b a).
Definition Qeqb (a b : Q) : bool := Qeq_bool a b.

Definition coord_eqb (a b : coord) : bool :=
  Qeqb a.1 b.1 && Qeqb a.2 b.2.

(** Twice the signed area of the triangle [a b c]: positive when [c] is to
    the left of the directed line from [a] to [b]. *)
Definition orient (a b c : coord) : Q :=
  (b.1 - a.1) * (c.2 - a.2) - (b.2 - a.2) * (c.1 - a.1).

Definition side (a b c : coord) : comparison := orient a b c ?= 0.

Definition between (u v x : Q) : bool :=
  (Qleb u x && Qleb x v) || (Qleb v x && Qleb x u).

(** [p] lies on the closed segment from [a] to [b]. *)
Definition on_segment (a b p : coord) : bool :=
  match side a b p with
  | Eq => between a.1 b.1 p.1 && between a.2 b.2 p.2
  | _ => false
  end.

Definition comparison_eqb (c d : comparison) : bool :=
  match c, d with
  | Eq, Eq | Lt, Lt | Gt, Gt => true
  | _, _ => false
  end.

(** The closed segments [a b] and [c d] have a point in common. *)
Definition segments_intersect (e f : coord * coord) : bool :=
  let '(a, b) := e in
  let '(c, d) := f in
  (negb (comparison_eqb (side a b c) (side a b d))
   && negb (comparison_eqb (side c d a) (side c d b)))
  || on_segment a b c || on_segment a b d
  || on_segment c d a || on_segment c d b.

(** Two consecutive edges [a b] and [b d] meet only in their common vertex:
    neither folds back over the other. *)
Definition adjacent_ok (e f : coord * coord) : bool :=
  negb (on_segment e.1 e.2 f.2) && negb (on_segment f.1 f.2 e.1).

(** [Polygon(points)]: the exterior ring, closed when the caller left it
    open. *)
Definition Polygon (points : list coord) : list coord :=
  match points, last points with
  | first :: _, Some final =>
      if coord_eqb first final then points else points ++ [first]
  | _, _ => points
  end.

(** Repeated consecutive points carry no edge. *)
Fixpoint drop_repeated (ring : list coord) : list coord :=
  match ring with
  | a :: tl =>
      match tl with
      | b :: _ => if coord_eqb a b then drop_repeated tl
                  else a :: drop_repeated tl
      | [] => [a]
      end
  | [] => []
  end.

Definition edges (ring : list coord) : list (coord * coord) :=
  zip ring (tail ring).

(** Edge [i] against a later edge [j] of a ring with [n] edges. *)
Definition edge_pair_ok (n : nat) (ie jf : nat * (coord * coord)) : bool :=
  let '(i, e) := ie in
  let '(j, f) := jf in
  if (j =? S i)%nat then adjacent_ok e f
  else if ((i =? 0) && (S j =? n))%nat then adjacent_ok f e
  else negb (segments_intersect e f).

Fixpoint all_pairs {A} (ok : A -> A -> bool) (l : list A) : bool :=
  match l with
  | [] => true
  | x :: tl => forallb (ok x) tl && all_pairs ok tl
  end.

Definition ring_simple (es : list (coord * coord)) : bool :=
  all_pairs (edge_pair_ok (length es)) (zip (seq 0 (length es)) es).

(** Modelled from the spec: shapely's [is_valid] (GEOS) is not part of the
    repository sources.  A polygon without holes is valid when its ring has
    at least three edges and no two edges meet except consecutive ones in
    their common vertex. *)
Definition is_valid (polygon : list coord) : bool :=
  let es := edges (drop_repeated polygon) in
  (3 <=? length es)%nat && ring_simple es.

(** The edge [a b] is crossed by the ray from [p] towards increasing x. *)
Definition crosses_ray (p : coord) (e : coord * coord) : bool :=
  let '(a, b) := e in
  if Qleb a.2 p.2 && Qltb p.2 b.2 then
    match side a b p with Gt => true | _ => false end
  else if Qleb b.2 p.2 && Qltb p.2 a.2 then
    match side a b p with Lt => true | _ => false end
  else false.

Definition on_boundary (p : coord) (polygon : list coord) : bool :=
  existsb (fun e => on_segment e.1 e.2 p) (edges polygon).

Definition crossings (p : coord) (polygon : list coord) : nat :=
  length (List.filter (crosses_ray p) (edges polygon)).

(** Modelled from the spec: shapely's [within] (GEOS) is not part of the
    repository sources.  A point is within a polygon when it lies in the
    interior: not on the ring, and an odd number of edges is crossed by a
    ray leaving the point. *)
Definition within (p : coord) (polygon : list coord) : bool :=
  negb (on_boundary p polygon) && Nat.odd (crossings p polygon).

(** The rectangle with opposite corners [(x0, y0)] and [(x1, y1)], its
    vertices in the order the notebook lists them. *)
Definition rectangle (x0 y0 x1 y1 : Q) : list coord :=
  Polygon [(x0, y0); (x0, y1); (x1, y1); (x1, y0); (x0, y0)].

(** The same rectangle listed from any corner, in either direction. *)
Definition rectangle_rings (x0 y0 x1 y1 : Q) : list (list coord) :=
  let a := (x0, y0) in
  let b := (x0, y1) in
  let c := (x1, y1) in
  let d := (x1, y0) in
  [Polygon [a; b; c; d; a]; Polygon [b; c; d; a; b];
   Polygon [c; d; a; b; c]; Polygon [d; a; b; c; d];
   Polygon [a; d; c; b; a]; Polygon [d; c; b; a; d];
   Polygon [c; b; a; d; c]; Polygon [b; a; d; c; b]].

(** The rings of the notebook. *)
Definition bowtie : list coord :=
  Polygon [(0, 0); (2, 2); (0, 2); (2, 0); (0, 0)]%Q.
Definition polygon1 : list coord :=
  Polygon [(0, 0); (0, 2); (2, 2); (2, 0); (0, 0)]%Q.
Definition polygon2 : list coord :=
  Polygon [(1, 1); (1, 3); (3, 3); (3, 1); (1, 1)]%Q.
Definition zone1 : list coord :=
  Polygon [(0, 0); (0, 4); (4, 4); (4, 0); (0, 0)]%Q.
Definition zone2 : list coord :=
  Polygon [(4, 0); (4, 4); (8, 4); (8, 0); (4, 0)]%Q.

Definition point1 : coord := (0, 0)%Q.
Definition school1 : coord := (1, 1)%Q.
Definition school2 : coord := (3, 3)%Q.
Definition school3 : coord := (5, 5)%Q.

End Shapely.

(** ** 03-Shapely: affine transformations *)

Module Affinity.
Import Shapely.
Local Open Scope Q_scope.

(** [affinity.translate(point, xoff, yoff)] *)
Definition translate_point (p : coord) (xoff yoff : Q) : coord :=
  (p.1 + xoff, p.2 + yoff).

(** [affinity.translate(geom, xoff, yoff)] on the coordinates of a line or
    of a ring. *)
Definition translate (geom : list coord) (xoff yoff : Q) : list coord :=
  map (fun p => translate_point p xoff yoff) geom.

(** The notebook's point and line. *)
Definition point : coord := (1, 1).
Definition linestring : list coord := [(0, 0); (1, 1); (2, 2)].

End Affinity.

(** ** 05-Rasterio: raster grids *)

Module Rasterio.
Import Shapely.
Local Open Scope Q_scope.

Inductive Resampling : Type := nearest | bilinear.

(** A two-dimensional numpy array: its shape and its rows. *)
Record ndarray : Type := { shape : nat * nat; data : list (list Q) }.

(** A north-up geotransform without rotation: pixel [(row, col)] has its
    upper-left corner at [(origin_x + col * res_x, origin_y - row * res_y)]. *)
Record Affine : Type :=
  { origin_x : Q; origin_y : Q; res_x : Q; res_y : Q }.

Record DatasetReader : Type :=
  { height : nat;
    width : nat;
    crs : option Z;
    transform : Affine;
    band1 : list (list Q) }.

(** Python's [//] on integers. *)
Definition floordiv (n d : Z) : result Z :=
  if (d =? 0)%Z then Raise ZeroDivisionError else Ok (n / d)%Z.

Section Read.
(** The resampling kernel of the raster library: the value of output
    pixel [(i, j)] of a grid of the given shape. *)
Variable kernel : Resampling -> DatasetReader -> nat * nat -> nat -> nat -> Q.

(** Modelled from the spec: rasterio's [read] is not part of the
    repository sources.  [src.read(1, out_shape=..., resampling=...)]
    resamples the band into an array of the requested shape; numpy refuses
    negative dimensions. *)
Definition read (src : DatasetReader) (out_shape : Z * Z)
    (resampling : Resampling) : result ndarray :=
  if ((out_shape.1 <? 0) || (out_shape.2 <? 0))%Z
  then Raise (ValueError "negative dimensions are not allowed")
  else
    let rows := Z.to_nat out_shape.1 in
    let cols := Z.to_nat out_shape.2 in
    Ok {| shape := (rows, cols);
          data :=
            map (fun i =>
                   map (fun j => kernel resampling src (rows, cols) i j)
                       (seq 0 cols))
                (seq 0 rows) |}.

(** The resampling cell:
    [src.read(1, out_shape=(src.height // resampling_factor,
                            src.width // resampling_factor),
              resampling=Resampling.bilinear)]. *)
Definition resample (src : DatasetReader) (resampling_factor : Z)
    : result ndarray :=
  try h <- floordiv (Z.of_nat (height src)) resampling_factor;
  try w <- floordiv (Z.of_nat (width src)) resampling_factor;
  read src (h, w) bilinear.
End Read.

(** The factor used in the notebook. *)
Definition resampling_factor : Z := 32.

(** A grid of 100 rows and 70 columns. *)
Definition nairobi_like : DatasetReader :=
  {| height := 100; width := 70; crs := Some 4326%Z;
     transform := {| origin_x := 36; origin_y := -1; res_x := 1; res_y := 1 |};
     band1 := [] |}.

(** [geometry.bounds] of a list of shapes: [(minx, miny, maxx, maxy)] over
    all their vertices. *)
Definition bounds (shapes : list (list coord)) : option (Q * Q * Q * Q) :=
  match concat shapes with
  | [] => None
  | p :: ps =>
      Some (foldr (fun q acc =>
                     let '(minx, miny, maxx, maxy) := acc in
                     (Qmin q.1 minx, Qmin q.2 miny,
                      Qmax q.1 maxx, Qmax q.2 maxy))
                  (p.1, p.2, p.1, p.2) ps)
  end.

(** A window of the grid: rows [row_off .. row_end) and columns
    [col_off .. col_end). *)
Record Window : Type :=
  { col_off : Z; row_off : Z; col_end : Z; row_end : Z }.

(** The window covering the bounds of the shapes: pixel coordinates are
    rounded outwards to whole pixels and the window is cut to the grid. *)
Definition geometry_window (src : DatasetReader) (box : Q * Q * Q * Q)
    : Window :=
  let '(minx, miny, maxx, maxy) := box in
  let t := transform src in
  {| col_off := Z.max 0 (Qfloor ((minx - origin_x t) / res_x t));
     row_off := Z.max 0 (Qfloor ((origin_y t - maxy) / res_y t));
     col_end := Z.min (Z.of_nat (width src))
                      (Qceiling ((maxx - origin_x t) / res_x t));
     row_end := Z.min (Z.of_nat (height src))
                      (Qceiling ((origin_y t - miny) / res_y t)) |}.

Definition window_transform (src : DatasetReader) (w : Window) : Affine :=
  let t := transform src in
  {| origin_x := origin_x t + inject_Z (col_off w) * res_x t;
     origin_y := origin_y t - inject_Z (row_off w) * res_y t;
     res_x := res_x t;
     res_y := res_y t |}.

(** The centre of pixel [(i, j)] under a transform. *)
Definition pixel_centre (t : Affine) (i j : nat) : coord :=
  (origin_x t + (inject_Z (Z.of_nat j) + (1 # 2)) * res_x t,
   origin_y t - (inject_Z (Z.of_nat i) + (1 # 2)) * res_y t).

(** A pixel is kept when its centre is in one of the shapes (interior or
    ring); this is the default [all_touched=False]. *)
Definition covered (p : coord) (shapes : list (list coord)) : bool :=
  existsb (fun s => within p s || on_boundary p s) shapes.

Definition pixel (src : DatasetReader) (row col : nat) : Q :=
  match band1 src !! row with
  | Some r => default 0 (r !! col)
  | None => 0
  end.

(** Modelled from the spec: rasterio's [mask] is not part of the
    repository sources.  With [crop=True] the result is restricted to the
    pixels overlapping the shapes' bounds, pixels not kept are set to
    [nodata], and the transform of the cropped grid is returned with it. *)
Definition rio_mask (src : DatasetReader) (shapes : list (list coord))
    (nodata : Q) : result (ndarray * Affine) :=
  match bounds shapes with
  | None => Raise (ValueError "Input shapes do not overlap raster.")
  | Some box =>
      let w := geometry_window src box in
      if ((col_off w <? col_end w) && (row_off w <? row_end w))%Z then
        let rows := Z.to_nat (row_end w - row_off w) in
        let cols := Z.to_nat (col_end w - col_off w) in
        let t := window_transform src w in
        Ok ({| shape := (rows, cols);
               data :=
                 map (fun i =>
                        map (fun j =>
                               if covered (pixel_centre t i j) shapes
                               then pixel src (Z.to_nat (row_off w) + i)
                                              (Z.to_nat (col_off w) + j)
                               else nodata)
                            (seq 0 cols))
                     (seq 0 rows) |}, t)
      else Raise (ValueError "Input shapes do not overlap raster.")
  end.

(** The spatial extent [(left, bottom, right, top)] of a grid. *)
Definition extent (out : ndarray) (t : Affine) : Q * Q * Q * Q :=
  (origin_x t,
   origin_y t - inject_Z (Z.of_nat (shape out).1) * res_y t,
   origin_x t + inject_Z (Z.of_nat (shape out).2) * res_x t,
   origin_y t).

(** Extent [inner] lies inside extent [outer]. *)
Definition extent_within (inner outer : Q * Q * Q * Q) : Prop :=
  let '(l, b, r, t) := inner in
  let '(l', b', r', t') := outer in
  l' <= l /\ b' <= b /\ r <= r' /\ t <= t'.

(** The bounds [box] are not degenerate and overlap the extent of a grid
    that is not empty. *)
Definition overlaps (box : Q * Q * Q * Q) (src : DatasetReader) : Prop :=
  let '(minx, miny, maxx, maxy) := box in
  let t := transform src in
  minx < maxx /\ miny < maxy
  /\ (0 < width src)%nat /\ (0 < height src)%nat
  /\ minx < origin_x t + inject_Z (Z.of_nat (width src)) * res_x t
  /\ origin_x t < maxx
  /\ miny < origin_y t
  /\ origin_y t - inject_Z (Z.of_nat (height src)) * res_y t < maxy.

(** An extent grown by [dx] to the left and right and [dy] up and down. *)
Definition grow (box : Q * Q * Q * Q) (dx dy : Q) : Q * Q * Q * Q :=
  let '(l, b, r, t) := box in (l - dx, b - dy, r + dx, t + dy).

(** [shapely.geometry.box(minx, miny, maxx, maxy)] *)
Definition box (minx miny maxx maxy : Q) : list coord :=
  Polygon [(maxx, miny); (maxx, maxy); (minx, maxy); (minx, miny);
           (maxx, miny)].

(** A grid of four rows and columns of unit pixels, upper-left corner at
    [(0, 4)], holding elevation 7 everywhere. *)
Definition unit_grid : DatasetReader :=
  {| height := 4; width := 4; crs := Some 4326%Z;
     transform := {| origin_x := 0; origin_y := 4; res_x := 1; res_y := 1 |};
     band1 := replicate 4 (replicate 4 7) |}.





(** A box that does not follow the pixel edges. *)
Definition off_grid_box : list coord := box (3 # 5) (3 # 5) (8 # 5) (8 # 5).

End Rasterio.

(** ** 06-XArray: labelled raster arrays *)

Module XArray.
Import Rasterio.
Local Open Scope Q_scope.

(** A raster opened with rioxarray: the [rio] accessor gives its CRS,
    transform and shape [(height, width)]. *)
Record DataArray : Type :=
  { rio_crs : option Z;
    rio_transform : Affine;
    rio_shape : nat * nat;
    values : list (list Q) }.

Section Reproject.
(** The warp of the raster library: transform and pixel values of the
    destination grid. *)
Variable warp :
  Resampling -> DataArray -> Z -> nat * nat -> Affine * (nat -> nat -> Q).

(** Modelled from the spec: rioxarray's [rio.reproject] is not part of the
    repository sources.  It needs a CRS on the source, and returns a new
    array declared in the destination CRS, of the requested shape. *)
Definition reproject (ds : DataArray) (dst_crs : option Z)
    (shape : nat * nat) (resampling : Resampling) : result DataArray :=
  match rio_crs ds with
  | None => Raise MissingCRS
  | Some _ =>
      match dst_crs with
      | None => Raise (ValueError "invalid CRS")
      | Some dst =>
          let '(t, v) := warp resampling ds dst shape in
          Ok {| rio_crs := Some dst;
                rio_transform := t;
                rio_shape := shape;
                values := map (fun i => map (v i) (seq 0 shape.2))
                              (seq 0 shape.1) |}
      end
  end.

(** The resampling cell:
    [ds.rio.reproject(ds.rio.crs, shape=(new_height, new_width),
                      resampling=Resampling.bilinear)]
    with [new_width = ds.rio.width * upscale_factor] and
    [new_height = ds.rio.height * upscale_factor]. *)
Definition resample (ds : DataArray) (upscale_factor : nat)
    : result DataArray :=
  let new_width := ((rio_shape ds).2 * upscale_factor)%nat in
  let new_height := ((rio_shape ds).1 * upscale_factor)%nat in
  reproject ds (rio_crs ds) (new_height, new_width) bilinear.
End Reproject.

Definition upscale_factor : nat := 2.


End XArray.

(** ** 04-GeoPandas: geometric frames *)

Module GeoPandas.
Import Shapely.

Record GeoDataFrame : Type :=
  { crs : option Z;
    geometry : list (list coord);
    attributes : Pandas.DataFrame }.

Section ToCrs.
(** The coordinate transformation between two EPSG codes. *)
Variable project : Z -> Z -> coord -> coord.

End ToCrs.

End GeoPandas.

(** ** The interactive session: names bound to shared objects *)

Module Session.
Import Pandas GeoPandas.

Inductive object : Type :=
  | Frame (df : DataFrame)
  | GeoFrame (gdf : GeoDataFrame)
  | Mask (mask : list bool)
  | Series (rows : grouped).

(** Objects live in a heap; a name is bound to the location of an object,
    so two names can share one object. *)
Record state : Type :=
  { heap : gmap positive object;
    names : gmap string positive }.

Definition alloc (o : object) (st : state) : positive * state :=
  let l := fresh (dom (heap st)) in
  (l, {| heap := <[l := o]> (heap st); names := names st |}).

Definition assign (name : string) (l : positive) (st : state) : state :=
  {| heap := heap st; names := <[name := l]> (names st) |}.

Definition deref (name : string) (st : state) : result object :=
  match names st !! name with
  | Some l =>
      match heap st !! l with
      | Some o => Ok o
      | None => Raise (NameError name)
      end
  | None => Raise (NameError name)
  end.

(** [target = value]: the value is a new object. *)
Definition bind_new (target : string) (o : object) (st : state) : state :=
  let '(l, st') := alloc o st in assign target l st'.

Section Cells.
Variable project : Z -> Z -> Shapely.coord -> Shapely.coord.




End Cells.


(** A session holding the Paris districts in UTM zone 31N. *)
Definition paris_session : state :=
  {| heap := {[ 1%positive :=
                  GeoFrame {| crs := Some 32631;
                              geometry := [Shapely.polygon1];
                              attributes := ∅ |} ]};
     names := {[ "gdf_paris_districts" := 1%positive ]} |}.

End Session.

(** ** 04-GeoPandas: cells that assign columns *)

Module GeoCells.
Import Pandas GeoPandas Session.

(** [name[...] = ...]: the object the name is bound to is changed in place,
    so every name bound to that object sees the change. *)
Definition update (name : string) (f : object -> result object)
    (st : state) : result state :=
  match names st !! name with
  | Some l =>
      match heap st !! l with
      | Some o =>
          try o' <- f o;
          Ok {| heap := <[l := o']> (heap st); names := names st |}
      | None => Raise (NameError name)
      end
  | None => Raise (NameError name)
  end.

Section Geometry.
(** The centroid and the area of a geometry, as the geometry library
    computes them. *)
Variable centroid : list Shapely.coord -> Shapely.coord.
Variable area : list Shapely.coord -> Q.

(** [d["geometry"] = d.centroid] *)
Definition set_centroids (o : object) : result object :=
  match o with
  | GeoFrame gdf =>
      Ok (GeoFrame {| crs := crs gdf;
                      geometry := map (fun g => [centroid g]) (geometry gdf);
                      attributes := attributes gdf |})
  | _ => Raise AttributeError
  end.

(** [gdf["area"] = gdf.area] *)
Definition set_area (o : object) : result object :=
  match o with
  | GeoFrame gdf =>
      Ok (GeoFrame {| crs := crs gdf;
                      geometry := geometry gdf;
                      attributes :=
                        <["area" := Numeric (map (fun g => Some (area g))
                                               (geometry gdf))]>
                        (attributes gdf) |})
  | _ => Raise AttributeError
  end.

(** The centroid cell: [d = gdf_paris_districts.copy()] and then
    [d["geometry"] = d.centroid]. *)
Definition cell_centroids (st : state) : result state :=
  try o <- deref "gdf_paris_districts" st;
  update "d" set_centroids (bind_new "d" o st).

(** The area cell: [gdf_paris_districts["area"] = gdf_paris_districts.area]. *)
Definition cell_area : state -> result state :=
  update "gdf_paris_districts" set_area.
End Geometry.

End GeoCells.

(** ** 05-Rasterio: writing raster files *)

Module RasterFiles.
Import Rasterio.

(** A raster file: its metadata and its bands, band 1 first. *)
Record Dataset : Type :=
  { width : nat;
    height : nat;
    count : nat;
    crs : option Z;
    transform : Affine;
    bands : list ndarray }.

(** Every band is there and has the shape of the file. *)
Definition well_formed (d : Dataset) : Prop :=
  length (bands d) = count d
  /\ Forall (fun b => shape b = (height d, width d)) (bands d).

Inductive outcome (A : Type) : Type :=
  | Done (a : A)
  | IndexError (bidx : Z)
  | ShapeError.
Arguments Done {A} a.
Arguments IndexError {A} bidx.
Arguments ShapeError {A}.

Definition in_range (d : Dataset) (bidx : Z) : bool :=
  ((1 <=? bidx) && (bidx <=? Z.of_nat (count d)))%Z.

(** [src.read(bidx)]: bands are numbered from 1. *)
Definition read (src : Dataset) (bidx : Z) : outcome ndarray :=
  if in_range src bidx then
    match bands src !! Z.to_nat (bidx - 1) with
    | Some band => Done band
    | None => IndexError bidx
    end
  else IndexError bidx.

(** [dst.write(arr, bidx)]: the band is replaced in the file. *)
Definition write (dst : Dataset) (arr : ndarray) (bidx : Z)
    : outcome Dataset :=
  if in_range dst bidx then
    if bool_decide (shape arr = (height dst, width dst)) then
      Done {| width := width dst; height := height dst; count := count dst;
              crs := crs dst; transform := transform dst;
              bands := <[Z.to_nat (bidx - 1) := arr]> (bands dst) |}
    else ShapeError
  else IndexError bidx.

Definition zeros (h w : nat) : ndarray :=
  {| shape := (h, w); data := replicate h (replicate w 0%Q) |}.

(** [rio.open(output_filename, 'w', **metadata)] with the metadata taken
    from [src]: a new file of that many empty bands. *)
Definition create_like (src : Dataset) : Dataset :=
  {| width := width src; height := height src; count := count src;
     crs := crs src; transform := transform src;
     bands := replicate (count src) (zeros (height src) (width src)) |}.

(** One turn of the loop:
    [dst.write(src.read(band_index + 1), band_index + 1)]. *)
Definition copy_band (src : Dataset) (acc : outcome Dataset)
    (band_index : nat) : outcome Dataset :=
  match acc with
  | Done dst =>
      match read src (Z.of_nat band_index + 1) with
      | Done arr => write dst arr (Z.of_nat band_index + 1)
      | IndexError bidx => IndexError bidx
      | ShapeError => ShapeError
      end
  | IndexError bidx => IndexError bidx
  | ShapeError => ShapeError
  end.

(** The writing cell: [for band_index in range(src.count): ...]. *)
Definition copy_bands (src : Dataset) : outcome Dataset :=
  fold_left (copy_band src) (seq 0 (count src)) (Done (create_like src)).

(** A file of two bands of two rows and one column. *)
Definition two_bands : Dataset :=
  {| width := 1; height := 2; count := 2; crs := Some 4326;
     transform := {| origin_x := 0; origin_y := 2; res_x := 1; res_y := 1 |};
     bands := [ {| shape := (2%nat, 1%nat); data := [[1%Q]; [2%Q]] |};
                {| shape := (2%nat, 1%nat); data := [[3%Q]; [4%Q]] |} ] |}.

End RasterFiles.

(** ** 05-Rasterio: arrays bound to names *)

Module Arrays.

(** A two-dimensional array of floats; [None] is NaN. *)
Abbreviation array := (list (list (option Q))).

Record state : Type :=
  { heap : gmap positive array;
    names : gmap string positive }.

(** [target = value] for a value that is a new array. *)
Definition bind_new (target : string) (a : array) (st : state) : state :=
  let l := fresh (dom (heap st)) in
  {| heap := <[l := a]> (heap st); names := <[target := l]> (names st) |}.

Definition value_of (name : string) (st : state) : result array :=
  match names st !! name with
  | Some l =>
      match heap st !! l with
      | Some a => Ok a
      | None => Raise (NameError name)
      end
  | None => Raise (NameError name)
  end.

(** [v < t] on one value: a comparison with NaN is false. *)
Definition below (t : Q) (v : option Q) : bool :=
  match v with
  | Some q => negb (Qle_bool t q)
  | None => false
  end.

Definition blank_below (t : Q) (a : array) : array :=
  map (map (fun v => if below t v then None else v)) a.

(** [name[name < t] = np.nan]: the array the name is bound to is changed in
    place. *)
Definition assign_nan_below (name : string) (t : Q) (st : state)
    : result state :=
  match names st !! name with
  | Some l =>
      match heap st !! l with
      | Some a =>
          Ok {| heap := <[l := blank_below t a]> (heap st);
                names := names st |}
      | None => Raise (NameError name)
      end
  | None => Raise (NameError name)
  end.

Definition elevation_threshold : Q := 1800%Q.

(** The masking cell:
    [nairobi_elevation_data = nairobi_elevation_data.astype(float)],
    [masked_elevation_data = nairobi_elevation_data.copy()] and
    [masked_elevation_data[masked_elevation_data < elevation_threshold]
       = np.nan]. *)
Definition cell_mask (st : state) : result state :=
  try a <- value_of "nairobi_elevation_data" st;
  let st1 := bind_new "nairobi_elevation_data" a st in
  try b <- value_of "nairobi_elevation_data" st1;
  let st2 := bind_new "masked_elevation_data" b st1 in
  assign_nan_below "masked_elevation_data" elevation_threshold st2.

(** A session holding a cropped elevation grid. *)
Definition cropped_session : state :=
  {| heap := {[ 1%positive := [[Some 1700; Some 1850]; [Some 0; Some 1800]]%Q ]};
     names := {[ "nairobi_elevation_data" := 1%positive ]} |}.

End Arrays.

(** * Part II: properties of the embedded cells *)

Module PandasFacts.
Import Pandas.

(** *** Facts about the grouping *)

Section GroupByFacts.
Context {K V : Type} (cmp : K -> K -> comparison).
Hypothesis cmp_eq : forall a b, cmp a b = Eq -> a = b.
Hypothesis cmp_gt : forall a b, cmp a b = Gt -> cmp b a = Lt.
Hypothesis cmp_trans :
  forall a b c, cmp a b = Lt -> cmp b c = Lt -> cmp a c = Lt.
Hypothesis cmp_irrefl : forall a, cmp a a <> Lt.

Lemma add_to_group_keys k (v : V) gs x :
  x ∈ (add_to_group cmp k v gs).*1 <-> x = k \/ x ∈ gs.*1.
Proof.
  induction gs as [|[k' vs] gs IH]; csimpl.
  - rewrite list_elem_of_singleton, elem_of_nil. tauto.
  - destruct (cmp k k') eqn:E; csimpl; rewrite !elem_of_cons.
    + apply cmp_eq in E. subst k'. tauto.
    + tauto.
    + rewrite IH. tauto.
Qed.

Lemma add_to_group_sorted k (v : V) gs :
  StronglySorted (key_lt cmp) gs.*1 ->
  StronglySorted (key_lt cmp) (add_to_group cmp k v gs).*1.
Proof.
  induction gs as [|[k' vs] gs IH]; csimpl; intros Hs.
  - repeat constructor.
  - apply StronglySorted_inv in Hs as [Hs Hall].
    destruct (cmp k k') eqn:E; csimpl.
    + constructor; assumption.
    + constructor; [constructor; assumption|].
      constructor; [exact E|].
      eapply Forall_impl; [exact Hall|].
      intros y Hy. exact (cmp_trans _ _ _ E Hy).
    + constructor; [apply IH; exact Hs|].
      apply Forall_forall. intros y Hy.
      apply add_to_group_keys in Hy as [->|Hy].
      * apply cmp_gt. exact E.
      * rewrite Forall_forall in Hall. apply Hall. exact Hy.
Qed.


Lemma fold_add_row_keys (kvs : list (option K * V)) acc x :
  x ∈ (fold_left (add_row cmp) kvs acc).*1 <->
  x ∈ acc.*1 \/ Some x ∈ kvs.*1.
Proof.
  revert acc. induction kvs as [|[ok v] kvs IH]; intros acc; simpl.
  - rewrite elem_of_nil. tauto.
  - rewrite IH, elem_of_cons. unfold add_row. simpl.
    destruct ok as [k|].
    + rewrite add_to_group_keys. split.
      * intros [[->|H]|H]; auto.
      * intros [H|[H|H]]; auto. injection H as ->. auto.
    + split; [tauto|]. intros [H|[H|H]]; auto. discriminate.
Qed.

Lemma fold_add_row_sorted (kvs : list (option K * V)) acc :
  StronglySorted (key_lt cmp) acc.*1 ->
  StronglySorted (key_lt cmp) (fold_left (add_row cmp) kvs acc).*1.
Proof.
  revert acc. induction kvs as [|[ok v] kvs IH]; intros acc Hs; simpl.
  - exact Hs.
  - apply IH. unfold add_row. simpl. destruct ok as [k|].
    + apply add_to_group_sorted. exact Hs.
    + exact Hs.
Qed.


Lemma key_lt_sorted_NoDup (ks : list K) :
  StronglySorted (key_lt cmp) ks -> NoDup ks.
Proof.
  induction 1 as [|k ks Hs IH Hall]; constructor.
  - intros Hin. rewrite Forall_forall in Hall.
    exact (cmp_irrefl k (Hall k Hin)).
  - exact IH.
Qed.

Lemma key_lt_sorted_unique (l1 l2 : list K) :
  StronglySorted (key_lt cmp) l1 -> StronglySorted (key_lt cmp) l2 ->
  (forall x, x ∈ l1 <-> x ∈ l2) -> l1 = l2.
Proof.
  intros H1. revert l2.
  induction H1 as [|a l1 Hs1 IH Hall1]; intros l2 H2 Heq.
  - destruct l2 as [|b l2]; [reflexivity|].
    exfalso. apply (not_elem_of_nil b). apply Heq. left.
  - destruct H2 as [|b l2 Hs2 Hall2].
    + exfalso. apply (not_elem_of_nil a). apply Heq. left.
    + rewrite Forall_forall in Hall1, Hall2.
      assert (a = b) as ->.
      { assert (Ha : a ∈ b :: l2) by (apply Heq; left).
        assert (Hb : b ∈ a :: l1) by (apply Heq; left).
        apply elem_of_cons in Ha as [->|Ha]; [reflexivity|].
        apply elem_of_cons in Hb as [->|Hb]; [reflexivity|].
        exfalso. apply (cmp_irrefl a).
        exact (cmp_trans _ _ _ (Hall1 _ Hb) (Hall2 _ Ha)). }
      f_equal. apply IH; [exact Hs2|].
      intros x. split; intros Hx.
      * assert (Hx' : x ∈ b :: l2) by (apply Heq; right; exact Hx).
        apply elem_of_cons in Hx' as [->|Hx']; [|exact Hx'].
        exfalso. exact (cmp_irrefl b (Hall1 _ Hx)).
      * assert (Hx' : x ∈ b :: l1) by (apply Heq; right; exact Hx).
        apply elem_of_cons in Hx' as [->|Hx']; [|exact Hx'].
        exfalso. exact (cmp_irrefl b (Hall2 _ Hx)).
Qed.

End GroupByFacts.

(** The byte-wise lexical order on labels is a strict total order. *)

Lemma label_cmp_eq a b : String_as_OT.compare a b = Eq -> a = b.
Proof. destruct (String_as_OT.compare_spec a b); congruence. Qed.

Lemma label_cmp_gt a b :
  String_as_OT.compare a b = Gt -> String_as_OT.compare b a = Lt.
Proof. destruct (String_as_OT.compare_spec a b); congruence. Qed.

Lemma label_cmp_trans a b c :
  String_as_OT.compare a b = Lt -> String_as_OT.compare b c = Lt ->
  String_as_OT.compare a c = Lt.
Proof. apply (@StrictOrder_Transitive _ _ String_as_OT.lt_strorder). Qed.

Lemma label_cmp_irrefl a : String_as_OT.compare a a <> Lt.
Proof. apply (@StrictOrder_Irreflexive _ _ String_as_OT.lt_strorder). Qed.

Lemma aggregate_keys {K V R} (f : list V -> R) (gs : list (K * list V)) :
  (aggregate f gs).*1 = gs.*1.
Proof.
  unfold aggregate. induction gs as [|g gs IH]; csimpl; [reflexivity|].
  f_equal. exact IH.
Qed.






(** C1. Grouping a frame by a categorical column and taking the mean of a
    numeric column succeeds and returns one row per distinct label present
    in the grouping column (missing labels are not labels), the rows ordered
    by label.  In particular, when exactly two labels [a < b] occur, the
    result has exactly the two rows keyed [a] and [b]. *)
Theorem groupby_mean_one_row_per_category
    (df : DataFrame) (by_ col : string) ks vs :
  df !! by_ = Some (Categorical ks) ->
  df !! col = Some (Numeric vs) ->
  length ks = length vs ->
  exists rows,
    groupby_mean df by_ col = Ok (ByLabel rows)
    /\ StronglySorted String_as_OT.lt rows.*1
    /\ NoDup rows.*1
    /\ (forall k, k ∈ rows.*1 <-> Some k ∈ ks)
    /\ (forall a b, String_as_OT.lt a b ->
          (forall k, Some k ∈ ks <-> k = a \/ k = b) ->
          rows.*1 = [a; b] /\ length rows = 2%nat).
Proof.
  intros Hby Hcol Hlen.
  unfold groupby_mean, groupby_aggregate, getitem. rewrite Hby, Hcol. simpl.
  eexists. split; [reflexivity|].
  rewrite aggregate_keys. unfold split_groups.
  assert (Hsorted : StronglySorted String_as_OT.lt
            (fold_left (add_row String_as_OT.compare) (zip ks vs) []).*1).
  { apply (fold_add_row_sorted String_as_OT.compare
             label_cmp_eq label_cmp_gt label_cmp_trans).
    constructor. }
  assert (Hkeys : forall k,
            k ∈ (fold_left (add_row String_as_OT.compare) (zip ks vs) []).*1
            <-> Some k ∈ ks).
  { intros k.
    rewrite (fold_add_row_keys String_as_OT.compare label_cmp_eq).
    rewrite fst_zip by lia. csimpl. rewrite elem_of_nil. tauto. }
  split; [exact Hsorted|]. split; [|split; [exact Hkeys|]].
  - apply (key_lt_sorted_NoDup String_as_OT.compare label_cmp_irrefl).
    exact Hsorted.
  - intros a b Hab Hobs.
    assert (Heq : (fold_left (add_row String_as_OT.compare) (zip ks vs) []).*1
                  = [a; b]).
    { apply (key_lt_sorted_unique String_as_OT.compare
               label_cmp_trans label_cmp_irrefl).
      - exact Hsorted.
      - repeat constructor. exact Hab.
      - intros k. rewrite Hkeys, Hobs, !elem_of_cons, elem_of_nil. tauto. }
    split; [exact Heq|].
    rewrite <- (length_fmap fst), aggregate_keys. unfold split_groups.
    rewrite Heq. reflexivity.
Qed.

Lemma groupby_mean_one_row_per_category_witness :
  exists rows,
    groupby_mean titanic_sample "Sex" "Age" = Ok (ByLabel rows)
    /\ StronglySorted String_as_OT.lt rows.*1
    /\ NoDup rows.*1
    /\ (forall k, k ∈ rows.*1 <->
          Some k ∈ [Some "male"; Some "female"; Some "female"])
    /\ (forall a b, String_as_OT.lt a b ->
          (forall k, Some k ∈ [Some "male"; Some "female"; Some "female"]
                     <-> k = a \/ k = b) ->
          rows.*1 = [a; b] /\ length rows = 2%nat).
Proof.
  apply (groupby_mean_one_row_per_category titanic_sample "Sex" "Age"
           [Some "male"; Some "female"; Some "female"]
           [Some 22; Some 38; Some 26]%Q); reflexivity.
Defined.


Example groupby_mean_titanic_sample :
  groupby_mean titanic_sample "Sex" "Age"
  = Ok (ByLabel [("female", Some (32 # 1)); ("male", Some (22 # 1))]).
Proof. reflexivity. Qed.

Example groupby_mean_unknown_column :
  groupby_mean titanic_sample "Cabin" "Age" = Raise (KeyError "Cabin").
Proof. reflexivity. Qed.


Example mean_vs_sum_over_len_values :
  groupby_mean titanic_missing "Sex" "Survived"
    = Ok (ByLabel [("male", Some (1 # 1))])
  /\ groupby_sum_over_len titanic_missing "Sex" "Survived"
    = Ok (ByLabel [("male", Some (1 # 2))]).
Proof. split; reflexivity. Qed.



(** C7. Loading a path that does not exist fails with the missing-file
    error of the notebook: the existence check raises, with the message that
    the data file does not exist, and the file is never opened.  Loading
    goes on to read the file exactly when the path exists, so a frame is
    only ever returned for an existing path.  A read without the check
    fails on a missing path too, with [FileNotFoundError]. *)
Theorem load_requires_existing_path
    (parse : string -> result DataFrame) (fs : filesystem) (path : string) :
  (fs !! path = None ->
     load parse fs path []
     = ([Stat path], Raise (AssertionError "The data file does not exist!")))
  /\ (forall content, fs !! path = Some content ->
        load parse fs path [] = ([Stat path; Open path], parse content))
  /\ (forall log r, load parse fs path [] = (log, r) ->
        Open path ∈ log -> is_Some (fs !! path))
  /\ (forall log df, load parse fs path [] = (log, Ok df) ->
        is_Some (fs !! path))
  /\ (fs !! path = None ->
      read_csv parse fs path [] = ([Open path], Raise (FileNotFoundError path))).
Proof.
  unfold load, io_bind, path_exists, py_assert, read_csv. simpl.
  destruct (fs !! path) as [content|] eqn:Hfs.
  - rewrite bool_decide_eq_true_2 by eauto. simpl.
    split; [discriminate|]. split; [|split; [|split]].
    + intros content' H. injection H as <-. reflexivity.
    + eauto.
    + eauto.
    + discriminate.
  - rewrite bool_decide_eq_false_2 by (intros [? H]; discriminate H). simpl.
    split; [reflexivity|]. split; [|split; [|split]].
    + intros content H. discriminate H.
    + intros log r H Hin. injection H as <- <-.
      apply list_elem_of_singleton in Hin. discriminate Hin.
    + intros log df H. discriminate H.
    + reflexivity.
Qed.

Lemma load_requires_existing_path_witness :
  load (fun _ => Raise ParserError) ∅ file_path []
  = ([Stat file_path], Raise (AssertionError "The data file does not exist!")).
Proof.
  apply (proj1 (load_requires_existing_path
                  (fun _ => Raise ParserError) ∅ file_path)).
  reflexivity.
Defined.

Example load_existing_file :
  load (fun _ => Ok titanic_sample) {[ file_path := "Sex,Age,Survived" ]}
       file_path []
  = ([Stat file_path; Open file_path], Ok titanic_sample).
Proof. reflexivity. Qed.

(** *** Boolean indexing *)

Lemma select_length_le {A} (mask : list bool) (l : list A) :
  (length (select mask l) <= length l)%nat.
Proof.
  revert l. induction mask as [|b mask IH]; intros [|a l]; simpl; try lia.
  specialize (IH l). destruct b; simpl; lia.
Qed.

Lemma select_length {A B} (mask : list bool) (l : list A) (k : list B) :
  length l = length mask -> length k = length mask ->
  length (select mask l) = length (select mask k).
Proof.
  revert l k. induction mask as [|b mask IH]; intros [|a l] [|c k] Hl Hk;
    simpl in *; try discriminate; try reflexivity.
  destruct b; simpl; rewrite (IH l k) by lia; reflexivity.
Qed.

Lemma select_above (x : Q) (vs : list (option Q)) :
  Forall (fun v => exists q, v = Some q /\ (x < q)%Q)
         (select (map (above x) vs) vs).
Proof.
  induction vs as [|v vs IH]; simpl; [constructor|].
  destruct (above x v) eqn:E; [|exact IH].
  constructor; [|exact IH].
  destruct v as [q|]; [|discriminate E]. exists q. split; [reflexivity|].
  simpl in E. apply negb_true_iff in E.
  apply Qnot_le_lt. intros H. apply Qle_bool_iff in H. congruence.
Qed.

Lemma select_again {A} (x : Q) (vs : list (option Q)) (l : list A) :
  length l = length vs ->
  select (map (above x) (select (map (above x) vs) vs))
         (select (map (above x) vs) l)
  = select (map (above x) vs) l.
Proof.
  revert l. induction vs as [|v vs IH]; intros [|a l] Hl; simpl in *;
    try discriminate; try reflexivity.
  destruct (above x v) eqn:E; simpl.
  - rewrite E. f_equal. apply IH. lia.
  - apply IH. lia.
Qed.

(** X2. Filtering a frame whose columns all have [n] rows by [df[col] > x]
    succeeds; the result has the same column names, its columns all have
    the same number of rows, at most [n]; every value left in [col] is
    present and greater than [x]; and filtering the result again by the
    same condition returns it unchanged. *)
Theorem filter_gt_keeps_matching_rows
    (df : DataFrame) (col : string) (x : Q) (n : nat) vs :
  rectangular df n ->
  df !! col = Some (Numeric vs) ->
  exists df' m vs',
    filter_gt df col x = Ok df'
    /\ dom df' = dom df
    /\ rectangular df' m /\ (m <= n)%nat
    /\ df' !! col = Some (Numeric vs')
    /\ Forall (fun v => exists q, v = Some q /\ (x < q)%Q) vs'
    /\ filter_gt df' col x = Ok df'.
Proof.
  intros Hrect Hcol.
  pose proof (Hrect col _ Hcol) as Hn. simpl in Hn.
  set (mask := map (above x) vs).
  assert (Hlookup : forall name,
            getitem_mask df mask !! name
            = (fun c => match c with
                        | Categorical ls => Categorical (select mask ls)
                        | Numeric ws => Numeric (select mask ws)
                        end) <$> df !! name).
  { intros name. unfold getitem_mask. apply lookup_fmap. }
  exists (getitem_mask df mask), (length (select mask vs)), (select mask vs).
  split; [|split; [|split; [|split; [|split; [|split]]]]].
  - unfold filter_gt, getitem. rewrite Hcol. reflexivity.
  - unfold getitem_mask. apply dom_fmap_L.
  - intros name c Hc. rewrite Hlookup in Hc.
    destruct (df !! name) as [c0|] eqn:Hc0; [|discriminate Hc].
    injection Hc as <-. pose proof (Hrect name c0 Hc0) as Hlen.
    assert (Hmask : length mask = n)
      by (unfold mask; rewrite length_map; exact Hn).
    destruct c0 as [ls|ws]; simpl in *;
      apply select_length; congruence.
  - rewrite <- Hn. apply select_length_le.
  - rewrite Hlookup, Hcol. reflexivity.
  - apply select_above.
  - unfold filter_gt, getitem. rewrite Hlookup, Hcol. simpl. f_equal.
    apply map_eq. intros name. unfold getitem_mask at 1.
    rewrite lookup_fmap, Hlookup.
    destruct (df !! name) as [c0|] eqn:Hc0; [|reflexivity].
    pose proof (Hrect name c0 Hc0) as Hlen.
    destruct c0 as [ls|ws]; simpl in *; do 2 f_equal;
      apply select_again; congruence.
Qed.

Lemma filter_gt_keeps_matching_rows_witness :
  exists df' m vs',
    filter_gt titanic_sample "Age" 25 = Ok df'
    /\ dom df' = dom titanic_sample
    /\ rectangular df' m /\ (m <= 3)%nat
    /\ df' !! "Age" = Some (Numeric vs')
    /\ Forall (fun v => exists q, v = Some q /\ (25 < q)%Q) vs'
    /\ filter_gt df' "Age" 25 = Ok df'.
Proof.
  apply (filter_gt_keeps_matching_rows titanic_sample "Age" 25 3
           [Some 22; Some 38; Some 26]%Q); [|reflexivity].
  intros name c Hc. unfold titanic_sample in Hc.
  repeat (apply lookup_insert_Some in Hc as [[_ <-]|[_ Hc]];
          [reflexivity|]).
  rewrite lookup_empty in Hc. discriminate Hc.
Defined.

Example filter_gt_titanic_sample :
  filter_gt titanic_sample "Age" 25
  = Ok (<["Sex" := Categorical [Some "female"; Some "female"]]>
        (<["Age" := Numeric [Some 38; Some 26]%Q]>
        (<["Survived" := Numeric [Some 1; Some 1]%Q]> ∅))).
Proof. vm_compute. reflexivity. Qed.

(** *** Slices *)

Lemma slice_bound_le (n : nat) (i : Z) : (slice_bound n i <= n)%nat.
Proof. unfold slice_bound. destruct (Z.ltb_spec i 0); lia. Qed.

Lemma py_slice_segment {A} (start stop : option Z) (l : list A) :
  exists before after, l = before ++ py_slice start stop l ++ after.
Proof.
  unfold py_slice.
  set (lo := from_option (slice_bound (length l)) 0%nat start).
  set (hi := from_option (slice_bound (length l)) (length l) stop).
  exists (take lo l), (drop (hi - lo) (drop lo l)).
  rewrite (take_drop (hi - lo) (drop lo l)), take_drop. reflexivity.
Qed.

Lemma slice_bound_nonneg (n : nat) (i : Z) :
  (0 <= i)%Z -> slice_bound n i = Nat.min (Z.to_nat i) n.
Proof. intros H. unfold slice_bound. destruct (Z.ltb_spec i 0); lia. Qed.

Lemma slice_bound_neg (n : nat) (i : Z) :
  (i < 0)%Z -> slice_bound n i = (n - Z.to_nat (- i))%nat.
Proof. intros H. unfold slice_bound. destruct (Z.ltb_spec i 0); lia. Qed.

Lemma py_slice_10_15 {A} (l : list A) :
  py_slice (Some 10%Z) (Some 15%Z) l = take 5 (drop 10 l).
Proof.
  unfold py_slice. cbn [from_option].
  rewrite !slice_bound_nonneg by lia.
  replace (Z.to_nat 10) with 10%nat by lia.
  replace (Z.to_nat 15) with 15%nat by lia.
  destruct (Nat.le_gt_cases 15 (length l)) as [H|H].
  - do 2 f_equal; lia.
  - destruct (Nat.le_gt_cases 10 (length l)) as [H'|H'].
    + rewrite (Nat.min_l 10) by lia.
      rewrite !take_ge by (rewrite length_drop; lia). reflexivity.
    + rewrite !drop_ge by lia. rewrite !take_nil. reflexivity.
Qed.

Lemma py_slice_last_500 {A} (l : list A) :
  py_slice (Some (-500)%Z) None l = drop (length l - 500) l.
Proof.
  unfold py_slice. cbn [from_option].
  rewrite slice_bound_neg by lia.
  replace (Z.to_nat (- -500)) with 500%nat by lia.
  apply take_ge. rewrite length_drop. lia.
Qed.

(** X3. A slice never fails and never reorders: [l[start:stop]] is a run of
    consecutive items of [l], whatever the bounds.  [df[10:15]] holds rows
    10 to 14, so on a frame of [n] rows it has [min n 15 - min n 10] rows
    in every column, none when [n <= 10]; [no2[-500:]] holds the last
    [min n 500] rows. *)
Theorem slice_rows_counts (df : DataFrame) (n : nat) :
  rectangular df n ->
  rectangular (slice_rows (Some 10%Z) (Some 15%Z) df)
              (Nat.min n 15 - Nat.min n 10)
  /\ rectangular (slice_rows (Some (-500)%Z) None df) (Nat.min n 500)
  /\ (forall A (l : list A),
        py_slice (Some 10%Z) (Some 15%Z) l = take 5 (drop 10 l)
        /\ py_slice (Some (-500)%Z) None l = drop (length l - 500) l)
  /\ (forall A start stop (l : list A),
        exists before after, l = before ++ py_slice start stop l ++ after).
Proof.
  intros Hrect.
  assert (Hcols : forall start stop name c,
            slice_rows start stop df !! name = Some c ->
            exists c0, df !! name = Some c0
              /\ column_length c0 = n
              /\ c = match c0 with
                     | Categorical ls => Categorical (py_slice start stop ls)
                     | Numeric vs => Numeric (py_slice start stop vs)
                     end).
  { intros start stop name c Hc. unfold slice_rows in Hc.
    rewrite lookup_fmap in Hc.
    destruct (df !! name) as [c0|] eqn:Hc0; [|discriminate Hc].
    injection Hc as <-. exists c0.
    split; [reflexivity|]. split; [exact (Hrect name c0 Hc0)|reflexivity]. }
  split; [|split; [|split]].
  - intros name c Hc. destruct (Hcols _ _ _ _ Hc) as (c0 & _ & Hlen & ->).
    destruct c0 as [ls|vs]; simpl in *; rewrite py_slice_10_15;
      rewrite length_take, length_drop; lia.
  - intros name c Hc. destruct (Hcols _ _ _ _ Hc) as (c0 & _ & Hlen & ->).
    destruct c0 as [ls|vs]; simpl in *; rewrite py_slice_last_500;
      rewrite length_drop; lia.
  - intros A l. split; [apply py_slice_10_15|apply py_slice_last_500].
  - intros A start stop l. apply py_slice_segment.
Qed.

Lemma slice_rows_counts_witness :
  rectangular (slice_rows (Some 10%Z) (Some 15%Z) titanic_sample) 0
  /\ rectangular (slice_rows (Some (-500)%Z) None titanic_sample) 3.
Proof.
  assert (Hrect : rectangular titanic_sample 3).
  { intros name c Hc. unfold titanic_sample in Hc.
    repeat (apply lookup_insert_Some in Hc as [[_ <-]|[_ Hc]];
            [reflexivity|]).
    rewrite lookup_empty in Hc. discriminate Hc. }
  destruct (slice_rows_counts titanic_sample 3 Hrect) as (H1 & H2 & _).
  split; [exact H1|exact H2].
Defined.

Example py_slice_examples :
  py_slice (Some 1%Z) (Some (-1)%Z) [1; 2; 3; 4] = [2; 3]
  /\ py_slice (Some 3%Z) (Some 1%Z) [1; 2; 3; 4] = []
  /\ py_slice (Some (-9)%Z) (Some 9%Z) [1; 2; 3; 4] = [1; 2; 3; 4].
Proof. repeat split; reflexivity. Qed.

(** *** The groups of a key, row by row *)

Example loop_sums_key_data :
  loop_sums key_data
  = [("A", Ok (SNum 15)); ("B", Ok (SNum 30)); ("C", Ok (SNum 45))].
Proof. vm_compute. reflexivity. Qed.

Example groupby_sum_key_data :
  groupby_sum key_data "key"
  = Ok {[ "data" := ByLabel [("A", Some 15%Q); ("B", Some 30%Q);
                              ("C", Some 45%Q)] ]}.
Proof. vm_compute. reflexivity. Qed.

Section GroupRows.
Context {K V : Type} (cmp : K -> K -> comparison).
Hypothesis cmp_eq : forall a b, cmp a b = Eq -> a = b.
Hypothesis cmp_refl : forall a, cmp a a = Eq.
Hypothesis cmp_gt : forall a b, cmp a b = Gt -> cmp b a = Lt.
Hypothesis cmp_trans :
  forall a b c, cmp a b = Lt -> cmp b c = Lt -> cmp a c = Lt.

Lemma cmp_lt_neq a b : cmp a b = Lt -> a <> b.
Proof. intros H ->. rewrite cmp_refl in H. discriminate H. Qed.

Lemma sorted_head_fresh (k : K) (ks : list K) :
  Forall (key_lt cmp k) ks -> k ∉ ks.
Proof.
  intros Hall Hin. rewrite Forall_forall in Hall.
  exact (cmp_lt_neq _ _ (Hall k Hin) eq_refl).
Qed.

(** Where a row lands: in the group of its key, at the end, or in a new
    group; the other groups are as they were. *)
Lemma add_to_group_member k0 (v : V) gs k g :
  StronglySorted (key_lt cmp) gs.*1 ->
  (k, g) ∈ add_to_group cmp k0 v gs ->
  (k = k0 /\ ((exists g0, (k0, g0) ∈ gs /\ g = g0 ++ [v])
              \/ ((k0 ∉ gs.*1) /\ g = [v])))
  \/ (k <> k0 /\ (k, g) ∈ gs).
Proof.
  induction gs as [|[k' vs] gs IH]; csimpl; intros Hs Hin.
  - apply list_elem_of_singleton in Hin. injection Hin as -> ->.
    left. split; [reflexivity|]. right. split; [apply not_elem_of_nil|].
    reflexivity.
  - apply StronglySorted_inv in Hs as [Hs Hall].
    destruct (cmp k0 k') eqn:E.
    + apply cmp_eq in E. subst k'.
      apply elem_of_cons in Hin as [Hin|Hin].
      * injection Hin as -> ->. left. split; [reflexivity|]. left.
        exists vs. split; [left|reflexivity].
      * right. split; [|right; exact Hin]. intros ->.
        apply (sorted_head_fresh k0 gs.*1 Hall).
        apply list_elem_of_fmap. exists (k0, g). split; [reflexivity|exact Hin].
    + assert (Hfresh : k0 ∉ k' :: gs.*1).
      { apply sorted_head_fresh. constructor; [exact E|].
        eapply Forall_impl; [exact Hall|].
        intros y Hy. exact (cmp_trans _ _ _ E Hy). }
      apply elem_of_cons in Hin as [Hin|Hin].
      * injection Hin as -> ->. left. split; [reflexivity|]. right.
        split; [exact Hfresh|reflexivity].
      * right. split; [|exact Hin]. intros ->. apply Hfresh.
        change (k' :: gs.*1) with (((k', vs) :: gs).*1).
        apply list_elem_of_fmap. exists (k0, g). split; [reflexivity|exact Hin].
    + apply cmp_gt in E.
      apply elem_of_cons in Hin as [Hin|Hin].
      * injection Hin as -> ->. right.
        split; [exact (cmp_lt_neq _ _ E)|left].
      * destruct (IH Hs Hin) as [[-> [(g0 & Hg0 & ->)|[Hfresh ->]]]|[Hne Hold]].
        -- left. split; [reflexivity|]. left. exists g0.
           split; [right; exact Hg0|reflexivity].
        -- left. split; [reflexivity|]. right. split; [|reflexivity].
           intros Hin'. apply elem_of_cons in Hin' as [->|Hin'].
           ++ exact (cmp_lt_neq _ _ E eq_refl).
           ++ exact (Hfresh Hin').
        -- right. split; [exact Hne|right; exact Hold].
Qed.

Lemma rows_of_snoc (k : K) (kvs : list (option K * V)) kv :
  rows_of cmp k (kvs ++ [kv]) = rows_of cmp k kvs ++ rows_of cmp k [kv].
Proof. unfold rows_of. apply omap_app. Qed.

Lemma fold_add_row_rows (kvs : list (option K * V)) :
  (forall k g, (k, g) ∈ fold_left (add_row cmp) kvs [] ->
               g = rows_of cmp k kvs)
  /\ (forall k, k ∉ (fold_left (add_row cmp) kvs []).*1 ->
                rows_of cmp k kvs = []).
Proof.
  induction kvs as [|[ok v] kvs [IHin IHout]] using rev_ind.
  - split; [|reflexivity]. intros k g Hin. apply elem_of_nil in Hin.
    contradiction.
  - rewrite fold_left_app. cbn [fold_left]. unfold add_row at 1 3. cbn [fst snd].
    assert (Hs : StronglySorted (key_lt cmp)
                   (fold_left (add_row cmp) kvs []).*1).
    { apply (fold_add_row_sorted cmp cmp_eq cmp_gt cmp_trans). constructor. }
    destruct ok as [k0|].
    + split.
      * intros k g Hin. rewrite rows_of_snoc. unfold rows_of at 2. simpl.
        destruct (add_to_group_member _ _ _ _ _ Hs Hin)
          as [[-> [(g0 & Hg0 & ->)|[Hfresh ->]]]|[Hne Hold]].
        -- rewrite cmp_refl. simpl. rewrite (IHin _ _ Hg0). reflexivity.
        -- rewrite cmp_refl. simpl. rewrite (IHout _ Hfresh). reflexivity.
        -- destruct (cmp k0 k) eqn:E;
             [apply cmp_eq in E; congruence| |];
             simpl; rewrite app_nil_r; exact (IHin _ _ Hold).
      * intros k Hout. rewrite rows_of_snoc. unfold rows_of at 2. simpl.
        rewrite (add_to_group_keys cmp cmp_eq) in Hout.
        destruct (cmp k0 k) eqn:E.
        -- apply cmp_eq in E. exfalso. apply Hout. left. congruence.
        -- simpl. rewrite app_nil_r. apply IHout. tauto.
        -- simpl. rewrite app_nil_r. apply IHout. tauto.
    + split.
      * intros k g Hin. rewrite rows_of_snoc. unfold rows_of at 2. simpl.
        rewrite app_nil_r. exact (IHin _ _ Hin).
      * intros k Hout. rewrite rows_of_snoc. unfold rows_of at 2. simpl.
        rewrite app_nil_r. exact (IHout _ Hout).
Qed.

End GroupRows.

Lemma label_cmp_refl a : String_as_OT.compare a a = Eq.
Proof.
  destruct (String_as_OT.compare_spec a a) as [_|H|H]; [reflexivity| |];
    exfalso; exact (label_cmp_irrefl a H).
Qed.

Lemma rows_of_select {V} (k : string) (ks : list (option string))
    (vs : list V) :
  rows_of String_as_OT.compare k (zip ks vs)
  = select (eq_label (Categorical ks) k) vs.
Proof.
  revert vs. induction ks as [|l ks IH]; intros [|v vs]; simpl;
    try reflexivity.
  unfold rows_of in *. cbn [omap list_omap fst snd]. rewrite IH.
  destruct l as [s|]; [|reflexivity].
  destruct (String.eqb_spec s k) as [->|Hne].
  - rewrite label_cmp_refl. reflexivity.
  - destruct (String_as_OT.compare s k) eqn:E; try reflexivity.
    apply label_cmp_eq in E. contradiction.
Qed.

Lemma groupby_sum_column (df : DataFrame) (key data : string) ks vs :
  df !! key = Some (Categorical ks) ->
  df !! data = Some (Numeric vs) ->
  exists g,
    groupby_sum df key = Ok g
    /\ g !! data
       = Some (ByLabel (aggregate (fun grp => Some (series_sum grp))
                          (split_groups String_as_OT.compare ks vs))).
Proof.
  intros Hkey Hdata. unfold groupby_sum, getitem. rewrite Hkey. simpl.
  eexists. split; [reflexivity|].
  rewrite lookup_omap, lookup_delete_ne by congruence.
  rewrite Hdata. reflexivity.
Qed.

(** X4. The loop that filters the frame on each key and sums the data
    agrees with the group-by: for every key [k] that has a row in
    [df.groupby(key).sum()], the sum on that row is
    [df[df[key] == k][data].sum()]; for a [k] that has no row, the filtered
    sum is the empty sum 0. *)
Theorem filtered_sum_is_groupby_sum
    (df : DataFrame) (key data : string) ks vs :
  df !! key = Some (Categorical ks) ->
  df !! data = Some (Numeric vs) ->
  length ks = length vs ->
  exists g rows,
    groupby_sum df key = Ok g
    /\ g !! data = Some (ByLabel rows)
    /\ (forall k s, (k, Some s) ∈ rows ->
          filtered_sum df key k data = Ok (SNum s))
    /\ (forall k, k ∉ rows.*1 ->
          filtered_sum df key k data = Ok (SNum 0)).
Proof.
  intros Hkey Hdata Hlen.
  destruct (groupby_sum_column df key data ks vs Hkey Hdata)
    as (g & Hg & Hrows).
  exists g. eexists. split; [exact Hg|]. split; [exact Hrows|].
  assert (Hloop : forall k,
            filtered_sum df key k data
            = Ok (SNum (series_sum
                          (rows_of String_as_OT.compare k (zip ks vs))))).
  { intros k. unfold filtered_sum, getitem. rewrite Hkey. simpl.
    unfold getitem_mask. rewrite lookup_fmap, Hdata. simpl.
    rewrite rows_of_select. reflexivity. }
  destruct (fold_add_row_rows String_as_OT.compare label_cmp_eq
              label_cmp_refl label_cmp_gt label_cmp_trans (zip ks vs))
    as [Hin Hout].
  split.
  - intros k s Hk. rewrite Hloop.
    unfold aggregate in Hk. apply list_elem_of_fmap in Hk as ([k' grp] & E & Hk).
    simpl in E. injection E as -> ->.
    unfold split_groups in Hk. rewrite (Hin _ _ Hk). reflexivity.
  - intros k Hk. rewrite Hloop. rewrite aggregate_keys in Hk.
    unfold split_groups in Hk. rewrite (Hout _ Hk). reflexivity.
Qed.

Lemma filtered_sum_is_groupby_sum_witness :
  exists g rows,
    groupby_sum key_data "key" = Ok g
    /\ g !! "data" = Some (ByLabel rows)
    /\ (forall k s, (k, Some s) ∈ rows ->
          filtered_sum key_data "key" k "data" = Ok (SNum s))
    /\ (forall k, k ∉ rows.*1 ->
          filtered_sum key_data "key" k "data" = Ok (SNum 0)).
Proof.
  apply (filtered_sum_is_groupby_sum key_data "key" "data"
           [Some "A"; Some "B"; Some "C"; Some "A"; Some "B";
            Some "C"; Some "A"; Some "B"; Some "C"]
           [Some 0; Some 5; Some 10; Some 5; Some 10; Some 15;
            Some 10; Some 15; Some 20]%Q); reflexivity.
Defined.

(** *** The group sums add up *)

Lemma total_app (l1 l2 : list Q) :
  (total (l1 ++ l2) == total l1 + total l2)%Q.
Proof.
  unfold total. induction l1 as [|q l1 IH]; simpl; [lra|].
  rewrite IH. lra.
Qed.

Lemma series_sum_snoc (vs : list (option Q)) v :
  (series_sum (vs ++ [v]) == series_sum vs + present v)%Q.
Proof.
  unfold series_sum, dropna. rewrite omap_app, total_app.
  destruct v as [q|]; unfold total; simpl; lra.
Qed.

Lemma series_sum_cons (vs : list (option Q)) v :
  (series_sum (v :: vs) == present v + series_sum vs)%Q.
Proof.
  destruct v as [q|].
  - change (series_sum (Some q :: vs)) with (q + series_sum vs)%Q.
    reflexivity.
  - change (series_sum (None :: vs)) with (series_sum vs).
    unfold present. simpl. lra.
Qed.

Lemma sums_add_to_group {K} (cmp : K -> K -> comparison) k v gs :
  (total (map (fun g => series_sum g.2) (add_to_group cmp k v gs))
   == total (map (fun g => series_sum g.2) gs) + present v)%Q.
Proof.
  induction gs as [|[k' vs] gs IH]; simpl.
  - destruct v as [q|]; unfold series_sum, total; simpl; lra.
  - destruct (cmp k k'); simpl.
    + rewrite series_sum_snoc. unfold total. simpl. lra.
    + destruct v as [q|]; unfold series_sum, total; simpl; lra.
    + unfold total in *. simpl. rewrite IH. lra.
Qed.

Lemma sums_fold_add_row {K} (cmp : K -> K -> comparison)
    (ks : list (option K)) (vs : list (option Q)) acc :
  (total (map (fun g => series_sum g.2)
            (fold_left (add_row cmp) (zip ks vs) acc))
   == total (map (fun g => series_sum g.2) acc)
      + series_sum (select (notna ks) vs))%Q.
Proof.
  revert vs acc. induction ks as [|k ks IH]; intros [|v vs] acc;
    try (simpl; unfold series_sum, total; simpl; lra).
  cbn [zip zip_with fold_left]. rewrite IH. unfold add_row. cbn [fst snd].
  destruct k as [k|].
  - rewrite sums_add_to_group.
    change (select (notna (Some k :: ks)) (v :: vs))
      with (v :: select (notna ks) vs).
    rewrite series_sum_cons. lra.
  - change (select (notna (None :: ks)) (v :: vs))
      with (select (notna ks) vs).
    lra.
Qed.

Lemma select_notna_all {A B} (ks : list (option A)) (vs : list B) :
  None ∉ ks -> length ks = length vs -> select (notna ks) vs = vs.
Proof.
  revert vs. induction ks as [|k ks IH]; intros [|v vs] Hk Hlen; simpl in *;
    try discriminate; try reflexivity.
  destruct k as [k|]; [|exfalso; apply Hk; left].
  f_equal. apply IH; [|lia]. intros H. apply Hk. right. exact H.
Qed.

Lemma omap_snd_aggregate {K} (gs : list (K * list (option Q))) :
  omap snd (aggregate (fun grp => Some (series_sum grp)) gs)
  = map (fun g => series_sum g.2) gs.
Proof.
  unfold aggregate. induction gs as [|g gs IH]; [reflexivity|].
  simpl. f_equal. exact IH.
Qed.

(** X5. The sums of [df.groupby(key).sum()] add up to the sum of the data
    over the rows that have a key; when no key is missing they add up to
    [df[data].sum()]. *)
Theorem groupby_sums_add_up (df : DataFrame) (key data : string) ks vs :
  df !! key = Some (Categorical ks) ->
  df !! data = Some (Numeric vs) ->
  length ks = length vs ->
  exists g rows,
    groupby_sum df key = Ok g
    /\ g !! data = Some (ByLabel rows)
    /\ (sum_of_rows rows == series_sum (select (notna ks) vs))%Q
    /\ (None ∉ ks ->
        exists s, column_sum (Numeric vs) = Ok (SNum s)
                  /\ (sum_of_rows rows == s)%Q).
Proof.
  intros Hkey Hdata Hlen.
  destruct (groupby_sum_column df key data ks vs Hkey Hdata)
    as (g & Hg & Hrows).
  exists g. eexists. split; [exact Hg|]. split; [exact Hrows|].
  assert (Hsum : (sum_of_rows
                    (aggregate (fun grp => Some (series_sum grp))
                       (split_groups String_as_OT.compare ks vs))
                  == series_sum (select (notna ks) vs))%Q).
  { unfold sum_of_rows. rewrite omap_snd_aggregate. unfold split_groups.
    rewrite sums_fold_add_row. unfold total. simpl. lra. }
  split; [exact Hsum|].
  intros Hnone. eexists. split; [reflexivity|].
  rewrite Hsum, select_notna_all by assumption. reflexivity.
Qed.

Lemma groupby_sums_add_up_witness :
  exists g rows,
    groupby_sum key_data "key" = Ok g
    /\ g !! "data" = Some (ByLabel rows)
    /\ (sum_of_rows rows == 90)%Q.
Proof.
  destruct (groupby_sums_add_up key_data "key" "data"
              [Some "A"; Some "B"; Some "C"; Some "A"; Some "B";
               Some "C"; Some "A"; Some "B"; Some "C"]
              [Some 0; Some 5; Some 10; Some 5; Some 10; Some 15;
               Some 10; Some 15; Some 20]%Q eq_refl eq_refl eq_refl)
    as (g & rows & Hg & Hrows & Hsum & _).
  exists g, rows. split; [exact Hg|]. split; [exact Hrows|].
  rewrite Hsum. reflexivity.
Defined.

End PandasFacts.

Module ShapelyFacts.
Import Shapely.
Local Open Scope Q_scope.

Example bowtie_invalid : is_valid bowtie = false.
Proof. reflexivity. Qed.

Example polygon1_valid : is_valid polygon1 = true.
Proof. reflexivity. Qed.

Example notebook_within :
  (within school1 zone1, within school1 zone2,
   within school2 zone1, within school2 zone2,
   within school3 zone1, within school3 zone2)
  = (true, false, true, false, false, false).
Proof. reflexivity. Qed.

Example point1_on_ring : within point1 polygon1 = false.
Proof. reflexivity. Qed.


(** *** Reflection of the rational comparisons *)

Lemma Qleb_spec a b : reflect (a <= b) (Qleb a b).
Proof.
  unfold Qleb. destruct (Qle_bool a b) eqn:E; constructor.
  - apply Qle_bool_iff. exact E.
  - intros H. apply Qle_bool_iff in H. congruence.
Qed.

Lemma Qltb_spec a b : reflect (a < b) (Qltb a b).
Proof.
  unfold Qltb. destruct (Qle_bool b a) eqn:E; constructor; simpl.
  - apply Qle_not_lt. apply Qle_bool_iff. exact E.
  - apply Qnot_le_lt. intros H. apply Qle_bool_iff in H. congruence.
Qed.

Lemma side_spec a b c :
  CompareSpec (orient a b c == 0) (orient a b c < 0) (0 < orient a b c)
              (side a b c).
Proof. unfold side. apply Qcompare_spec. Qed.

Ltac q_cases :=
  repeat match goal with
    | |- context [Qleb ?a ?b] => destruct (Qleb_spec a b)
    | |- context [Qltb ?a ?b] => destruct (Qltb_spec a b)
    end.

(** *** An edge may be listed in either direction *)

Lemma side_flip a b p : side b a p = CompOpp (side a b p).
Proof.
  destruct (side_spec b a p) as [E|E|E], (side_spec a b p) as [F|F|F];
    try reflexivity; exfalso; unfold orient in *; lra.
Qed.

Lemma between_flip a b x : between a b x = between b a x.
Proof. unfold between. apply orb_comm. Qed.

Lemma on_segment_sym a b p : on_segment b a p = on_segment a b p.
Proof.
  unfold on_segment. rewrite side_flip.
  rewrite (between_flip b.1 a.1), (between_flip b.2 a.2).
  destruct (side a b p); reflexivity.
Qed.

Lemma crosses_ray_sym p a b : crosses_ray p (b, a) = crosses_ray p (a, b).
Proof.
  unfold crosses_ray. rewrite side_flip.
  q_cases; simpl; destruct (side a b p); simpl; try reflexivity;
    exfalso; lra.
Qed.

(** *** The four sides of an axis-parallel rectangle *)

Section Rectangle.
Variables x0 y0 x1 y1 : Q.
Hypothesis Hx : x0 < x1.
Hypothesis Hy : y0 < y1.
Variables u v : Q.

Lemma between_spec a b x : a <= b -> reflect (a <= x <= b) (between a b x).
Proof.
  intros Hab. unfold between. q_cases; simpl; constructor; lra.
Qed.

Ltac side_cases a b p :=
  unfold on_segment;
  let E := fresh "E" in
  destruct (side_spec a b p) as [E|E|E]; unfold orient in E; simpl in E.

Ltac q_close :=
  simpl; split;
  [ try discriminate; intros _; repeat split; first [lra | nra]
  | try reflexivity; intros [? [? ?]]; exfalso; first [lra | nra] ].

Lemma on_left_side :
  on_segment (x0, y0) (x0, y1) (u, v) = true <-> u == x0 /\ y0 <= v <= y1.
Proof.
  side_cases (x0, y0) (x0, y1) (u, v); simpl;
    [destruct (between_spec x0 x0 u ltac:(lra));
     destruct (between_spec y0 y1 v ltac:(lra))| |]; q_close.
Qed.

Lemma on_top_side :
  on_segment (x0, y1) (x1, y1) (u, v) = true <-> v == y1 /\ x0 <= u <= x1.
Proof.
  side_cases (x0, y1) (x1, y1) (u, v); simpl;
    [destruct (between_spec x0 x1 u ltac:(lra));
     destruct (between_spec y1 y1 v ltac:(lra))| |]; q_close.
Qed.

Lemma on_right_side :
  on_segment (x1, y1) (x1, y0) (u, v) = true <-> u == x1 /\ y0 <= v <= y1.
Proof.
  side_cases (x1, y1) (x1, y0) (u, v); simpl;
    [destruct (between_spec x1 x1 u ltac:(lra));
     rewrite (between_flip y1 y0);
     destruct (between_spec y0 y1 v ltac:(lra))| |]; q_close.
Qed.

Lemma on_bottom_side :
  on_segment (x1, y0) (x0, y0) (u, v) = true <-> v == y0 /\ x0 <= u <= x1.
Proof.
  side_cases (x1, y0) (x0, y0) (u, v); simpl;
    [rewrite (between_flip x1 x0);
     destruct (between_spec x0 x1 u ltac:(lra));
     destruct (between_spec y0 y0 v ltac:(lra))| |]; q_close.
Qed.

Ltac crossing_cases a b p :=
  unfold crosses_ray; simpl;
  let E := fresh "E" in
  destruct (side_spec a b p) as [E|E|E]; unfold orient in E; simpl in E;
  q_cases; simpl;
  (split;
   [ try discriminate; intros _; repeat split; first [lra | nra]
   | try reflexivity; intros [[? ?] ?]; exfalso; first [lra | nra] ]).

Lemma crosses_left_side :
  crosses_ray (u, v) ((x0, y0), (x0, y1)) = true <-> y0 <= v < y1 /\ u < x0.
Proof. crossing_cases (x0, y0) (x0, y1) (u, v). Qed.

Lemma crosses_right_side :
  crosses_ray (u, v) ((x1, y1), (x1, y0)) = true <-> y0 <= v < y1 /\ u < x1.
Proof. crossing_cases (x1, y1) (x1, y0) (u, v). Qed.

Lemma crosses_top_side : crosses_ray (u, v) ((x0, y1), (x1, y1)) = false.
Proof.
  unfold crosses_ray; simpl. q_cases; simpl; try reflexivity; exfalso; lra.
Qed.

Lemma crosses_bottom_side : crosses_ray (u, v) ((x1, y0), (x0, y0)) = false.
Proof.
  unfold crosses_ray; simpl. q_cases; simpl; try reflexivity; exfalso; lra.
Qed.

Ltac ring_edges :=
  match goal with
  | |- context [edges ?ring] =>
      let es := fresh "es" in
      let E := fresh "E" in
      remember (edges ring) as es eqn:E;
      unfold Polygon, coord_eqb, Qeqb in E; simpl in E;
      rewrite !Qeq_bool_refl in E; unfold edges in E; simpl in E; subst es
  end.

Ltac ring_cases :=
  unfold within, on_boundary, crossings; ring_edges;
  cbn [existsb List.filter fst snd];
  rewrite ?(on_segment_sym (x0, y0) (x0, y1)),
          ?(on_segment_sym (x0, y1) (x1, y1)),
          ?(on_segment_sym (x1, y1) (x1, y0)),
          ?(on_segment_sym (x1, y0) (x0, y0)),
          ?(crosses_ray_sym (u, v) (x0, y0) (x0, y1)),
          ?(crosses_ray_sym (u, v) (x0, y1) (x1, y1)),
          ?(crosses_ray_sym (u, v) (x1, y1) (x1, y0)),
          ?(crosses_ray_sym (u, v) (x1, y0) (x0, y0));
  rewrite crosses_top_side, crosses_bottom_side;
  destruct (on_segment (x0, y0) (x0, y1) (u, v)) eqn:B1;
  destruct (on_segment (x0, y1) (x1, y1) (u, v)) eqn:B2;
  destruct (on_segment (x1, y1) (x1, y0) (u, v)) eqn:B3;
  destruct (on_segment (x1, y0) (x0, y0) (u, v)) eqn:B4;
  destruct (crosses_ray (u, v) ((x0, y0), (x0, y1))) eqn:C1;
  destruct (crosses_ray (u, v) ((x1, y1), (x1, y0))) eqn:C3;
  simpl;
  try apply on_left_side in B1; try apply on_top_side in B2;
  try apply on_right_side in B3; try apply on_bottom_side in B4;
  try apply crosses_left_side in C1; try apply crosses_right_side in C3;
  try (apply not_true_iff_false in B1; rewrite on_left_side in B1);
  try (apply not_true_iff_false in B2; rewrite on_top_side in B2);
  try (apply not_true_iff_false in B3; rewrite on_right_side in B3);
  try (apply not_true_iff_false in B4; rewrite on_bottom_side in B4);
  try (apply not_true_iff_false in C1; rewrite crosses_left_side in C1);
  try (apply not_true_iff_false in C3; rewrite crosses_right_side in C3);
  (split; [try discriminate; intros _; lra
          | try reflexivity; intros ?; exfalso; lra]).

Lemma rectangle_interior_iff (ring : list coord) :
  ring ∈ rectangle_rings x0 y0 x1 y1 ->
  within (u, v) ring = true <-> (x0 < u < x1 /\ y0 < v < y1).
Proof.
  unfold rectangle_rings. intros Hin.
  repeat (apply elem_of_cons in Hin as [->|Hin]);
    [..|apply elem_of_nil in Hin; contradiction].
  all: ring_cases.
Qed.

End Rectangle.




(** *** Ring validity *)






(** *** Zones side by side *)

(** X6. Two rectangular zones that share a side, as the notebook's
    [zone1] and [zone2] do, never both hold a point: a point is within at
    most one of them, a point on the shared side is within neither, and
    every other point within the rectangle that the two zones make up is
    within one of them. *)
Theorem adjacent_zones (x0 x1 x2 y0 y1 : Q) (p : coord) :
  x0 < x1 -> x1 < x2 -> y0 < y1 ->
  ~ (within p (rectangle x0 y0 x1 y1) = true
     /\ within p (rectangle x1 y0 x2 y1) = true)
  /\ (p.1 == x1 ->
      within p (rectangle x0 y0 x1 y1) = false
      /\ within p (rectangle x1 y0 x2 y1) = false)
  /\ (within p (rectangle x0 y0 x2 y1) = true -> ~ p.1 == x1 ->
      within p (rectangle x0 y0 x1 y1) = true
      \/ within p (rectangle x1 y0 x2 y1) = true).
Proof.
  intros H01 H12 Hy. destruct p as [u v]. simpl.
  assert (Hin : forall a b, rectangle a y0 b y1 ∈ rectangle_rings a y0 b y1)
    by (intros a b; unfold rectangle_rings; left).
  pose proof (rectangle_interior_iff x0 y0 x1 y1 H01 Hy u v _ (Hin x0 x1))
    as Hleft.
  pose proof (rectangle_interior_iff x1 y0 x2 y1 H12 Hy u v _ (Hin x1 x2))
    as Hright.
  assert (H02 : x0 < x2) by lra.
  pose proof (rectangle_interior_iff x0 y0 x2 y1 H02 Hy u v _ (Hin x0 x2))
    as Hboth.
  split; [|split].
  - rewrite Hleft, Hright. lra.
  - intros Hu. rewrite <- !not_true_iff_false, Hleft, Hright. lra.
  - rewrite Hleft, Hright, Hboth. lra.
Qed.

Lemma adjacent_zones_witness :
  ~ (within school2 zone1 = true /\ within school2 zone2 = true)
  /\ (within (4, 2) zone1 = false /\ within (4, 2) zone2 = false).
Proof.
  pose proof (adjacent_zones 0 4 8 0 4 school2 eq_refl eq_refl eq_refl)
    as [H _].
  pose proof (adjacent_zones 0 4 8 0 4 (4, 2) eq_refl eq_refl eq_refl)
    as [_ [H' _]].
  split; [exact H|]. apply H'. reflexivity.
Defined.

End ShapelyFacts.

Module RasterioFacts.
Import Shapely Rasterio.
Local Open Scope Q_scope.

(** C5. Resampling a grid of [height] rows and [width] columns by a positive
    factor [F] returns a grid with [height // F] rows and [width // F]
    columns, whatever the interpolation kernel: the shape says so and the
    data has that many rows, each of that many values. *)
Theorem resample_shape
    (kernel : Resampling -> DatasetReader -> nat * nat -> nat -> nat -> Q)
    (src : DatasetReader) (F : Z) :
  (0 < F)%Z ->
  exists out,
    resample kernel src F = Ok out
    /\ Z.of_nat (shape out).1 = (Z.of_nat (height src) / F)%Z
    /\ Z.of_nat (shape out).2 = (Z.of_nat (width src) / F)%Z
    /\ length (data out) = (shape out).1
    /\ Forall (fun row => length row = (shape out).2) (data out).
Proof.
  intros HF. unfold resample, floordiv.
  destruct (Z.eqb_spec F 0) as [->|_]; [lia|]. simpl.
  assert (Hh : (0 <= Z.of_nat (height src) / F)%Z)
    by (apply Z.div_pos; lia).
  assert (Hw : (0 <= Z.of_nat (width src) / F)%Z)
    by (apply Z.div_pos; lia).
  unfold read. simpl.
  destruct (Z.ltb_spec (Z.of_nat (height src) / F) 0); [lia|].
  destruct (Z.ltb_spec (Z.of_nat (width src) / F) 0); [lia|]. simpl.
  eexists. split; [reflexivity|]. simpl.
  split; [lia|]. split; [lia|]. split.
  - rewrite length_map, length_seq. reflexivity.
  - apply Forall_forall. intros row Hrow.
    apply list_elem_of_fmap in Hrow as (i & -> & _).
    rewrite length_map, length_seq. reflexivity.
Qed.

Lemma resample_shape_witness :
  exists out,
    resample (fun _ _ _ _ _ => 0%Q) nairobi_like resampling_factor = Ok out
    /\ Z.of_nat (shape out).1 = 3%Z
    /\ Z.of_nat (shape out).2 = 2%Z
    /\ length (data out) = (shape out).1
    /\ Forall (fun row => length row = (shape out).2) (data out).
Proof.
  apply (resample_shape (fun _ _ _ _ _ => 0%Q) nairobi_like resampling_factor).
  reflexivity.
Defined.


Example crop_off_grid_box :
  rio_mask unit_grid [off_grid_box] 0
  = Ok ({| shape := (2%nat, 2%nat); data := [[0; 7]; [0; 0]] |},
        {| origin_x := 0 + 0 * 1; origin_y := 4 - 2 * 1;
           res_x := 1; res_y := 1 |}).
Proof. reflexivity. Qed.


(** *** Rounding a window outwards moves an edge by less than a pixel *)

Lemma snap_low (r d A : Q) :
  0 < r -> A * r == d -> d - r <= inject_Z (Z.max 0 (Qfloor A)) * r.
Proof.
  intros Hr HA.
  pose proof (Qlt_floor A) as Hfl. rewrite inject_Z_plus in Hfl.
  change (inject_Z 1) with 1 in Hfl.
  destruct (Z.max_spec 0 (Qfloor A)) as [[Hlt ->]|[Hle ->]].
  - nra.
  - rewrite Zle_Qle in Hle. change (inject_Z 0) with 0 in *. nra.
Qed.

Lemma snap_high (r d A : Q) (n : Z) :
  0 < r -> A * r == d -> inject_Z (Z.min n (Qceiling A)) * r <= d + r.
Proof.
  intros Hr HA.
  pose proof (Qceiling_lt A) as Hcl.
  unfold Z.sub in Hcl. rewrite inject_Z_plus in Hcl.
  rewrite inject_Z_opp in Hcl. change (inject_Z 1) with 1 in Hcl.
  assert (Hmin : inject_Z (Z.min n (Qceiling A)) <= inject_Z (Qceiling A))
    by (rewrite <- Zle_Qle; lia).
  nra.
Qed.

Lemma inject_Z_to_nat (k : Z) :
  (0 <= k)%Z -> inject_Z (Z.of_nat (Z.to_nat k)) = inject_Z k.
Proof. intros H. rewrite Z2Nat.id by exact H. reflexivity. Qed.

(** C6, as stated, fails: the cropped grid is made of whole pixels, so its
    extent reaches beyond a box that does not follow the pixel edges. *)
Lemma crop_extent_exceeds_bounds :
  ~ (forall src shapes nodata out t bbox,
       rio_mask src shapes nodata = Ok (out, t) ->
       bounds shapes = Some bbox ->
       extent_within (extent out t) bbox).
Proof.
  intros H.
  specialize (H unit_grid [off_grid_box] 0 _ _ _ eq_refl eq_refl).
  destruct H as [H _]. vm_compute in H. apply H. reflexivity.
Qed.

Lemma window_nonempty (r da db A B : Q) (n : Z) :
  0 < r -> A * r == da -> B * r == db ->
  da < db -> 0 < db -> da < inject_Z n * r -> (0 < n)%Z ->
  (Z.max 0 (Qfloor A) < Z.min n (Qceiling B))%Z.
Proof.
  intros Hr HA HB Hab Hb Hn Hpos.
  pose proof (Qfloor_le A) as Hfl. pose proof (Qle_ceiling B) as Hcl.
  assert (H1 : (Qfloor A < Qceiling B)%Z) by (rewrite Zlt_Qlt; nra).
  assert (H2 : (Qfloor A < n)%Z) by (rewrite Zlt_Qlt; nra).
  assert (H3 : (0 < Qceiling B)%Z)
    by (rewrite Zlt_Qlt; change (inject_Z 0) with 0; nra).
  lia.
Qed.

(** C6, amended.  Cropping a grid with positive pixel sizes to shapes
    returns whole pixels: the extent of the result lies within the bounds of
    the shapes grown by one pixel size on every side, and every pixel of
    the result whose centre is in none of the shapes holds the no-data
    value.  A result is returned whenever the bounds overlap the grid. *)
Theorem rio_mask_crop (src : DatasetReader) (shapes : list (list coord))
    (nodata : Q) (bbox : Q * Q * Q * Q) :
  0 < res_x (transform src) -> 0 < res_y (transform src) ->
  bounds shapes = Some bbox ->
  (forall out t,
     rio_mask src shapes nodata = Ok (out, t) ->
     extent_within (extent out t)
                   (grow bbox (res_x (transform src)) (res_y (transform src)))
     /\ (forall i j row v,
           data out !! i = Some row -> row !! j = Some v ->
           covered (pixel_centre t i j) shapes = false -> v = nodata)
     /\ length (data out) = (shape out).1
     /\ Forall (fun row => length row = (shape out).2) (data out))
  /\ (overlaps bbox src ->
      exists out t, rio_mask src shapes nodata = Ok (out, t)).
Proof.
  intros Hrx Hry Hbox. unfold rio_mask. rewrite Hbox.
  destruct bbox as [[[minx miny] maxx] maxy].
  remember (geometry_window src (minx, miny, maxx, maxy)) as w eqn:Hw.
  set (rx := res_x (transform src)) in *.
  set (ry := res_y (transform src)) in *.
  set (ox := origin_x (transform src)).
  set (oy := origin_y (transform src)).
  assert (Hco : col_off w = Z.max 0 (Qfloor ((minx - ox) / rx)))
    by (rewrite Hw; reflexivity).
  assert (Hro : row_off w = Z.max 0 (Qfloor ((oy - maxy) / ry)))
    by (rewrite Hw; reflexivity).
  assert (Hce : col_end w = Z.min (Z.of_nat (width src))
                                  (Qceiling ((maxx - ox) / rx)))
    by (rewrite Hw; reflexivity).
  assert (Hre : row_end w = Z.min (Z.of_nat (height src))
                                  (Qceiling ((oy - miny) / ry)))
    by (rewrite Hw; reflexivity).
  split.
  - intros out t Hmask.
    destruct ((col_off w <? col_end w)%Z && (row_off w <? row_end w)%Z)
      eqn:Hwin; [|discriminate Hmask].
    apply andb_true_iff in Hwin as [Hc Hr].
    apply Z.ltb_lt in Hc, Hr.
    injection Hmask as <- <-.
    split; [|split; [|split]].
    + unfold extent, extent_within, grow, window_transform. simpl.
      rewrite !inject_Z_to_nat by lia.
      unfold Z.sub. rewrite !inject_Z_plus, !inject_Z_opp.
      fold rx ry ox oy.
      assert (Hl := snap_low rx (minx - ox) ((minx - ox) / rx) Hrx
                      ltac:(field; lra)).
      assert (Ht := snap_low ry (oy - maxy) ((oy - maxy) / ry) Hry
                      ltac:(field; lra)).
      assert (Hri := snap_high rx (maxx - ox) ((maxx - ox) / rx)
                       (Z.of_nat (width src)) Hrx ltac:(field; lra)).
      assert (Hb := snap_high ry (oy - miny) ((oy - miny) / ry)
                      (Z.of_nat (height src)) Hry ltac:(field; lra)).
      rewrite <- Hco in Hl. rewrite <- Hro in Ht.
      rewrite <- Hce in Hri. rewrite <- Hre in Hb.
      repeat split; lra.
    + simpl. intros i j row v Hi Hj Hout.
      apply list_lookup_fmap_Some in Hi as (i' & -> & Hi').
      apply lookup_seq in Hi' as [-> _].
      apply list_lookup_fmap_Some in Hj as (j' & -> & Hj').
      apply lookup_seq in Hj' as [-> _]. simpl.
      rewrite Hout. reflexivity.
    + simpl. rewrite length_map, length_seq. reflexivity.
    + simpl. apply Forall_forall. intros row Hrow.
      apply list_elem_of_fmap in Hrow as (i & -> & _).
      rewrite length_map, length_seq. reflexivity.
  - unfold overlaps. fold rx ry ox oy.
    intros (Hx & Hy & Hwd & Hht & Hr1 & Hr2 & Hr3 & Hr4).
    assert (Hc : (col_off w < col_end w)%Z).
    { rewrite Hco, Hce.
      apply (window_nonempty rx (minx - ox) (maxx - ox));
        try (field; lra); try lra; lia. }
    assert (Hr : (row_off w < row_end w)%Z).
    { rewrite Hro, Hre.
      apply (window_nonempty ry (oy - maxy) (oy - miny));
        try (field; lra); try lra; lia. }
    apply Z.ltb_lt in Hc, Hr. rewrite Hc, Hr. simpl.
    eexists. eexists. reflexivity.
Qed.

Lemma rio_mask_crop_witness :
  exists out t,
    rio_mask unit_grid [off_grid_box] 0 = Ok (out, t)
    /\ extent_within (extent out t) (grow (3 # 5, 3 # 5, 8 # 5, 8 # 5) 1 1)
    /\ (forall i j row v,
          data out !! i = Some row -> row !! j = Some v ->
          covered (pixel_centre t i j) [off_grid_box] = false -> v = 0).
Proof.
  pose proof (rio_mask_crop unit_grid [off_grid_box] 0
                (3 # 5, 3 # 5, 8 # 5, 8 # 5)
                eq_refl eq_refl eq_refl) as [Hprops Hruns].
  destruct Hruns as (out & t & Hok).
  { unfold overlaps. simpl. repeat split; try reflexivity; lia. }
  exists out, t. split; [exact Hok|].
  destruct (Hprops out t Hok) as (Hext & Hnodata & _).
  split; [exact Hext|exact Hnodata].
Defined.

(** *** Pixel indices and coordinates *)




(** *** What a crop keeps *)



End RasterioFacts.

Module XArrayFacts.
Import Rasterio XArray.



Example resample_without_crs warp t sh v r :
  reproject warp
    {| rio_crs := None; rio_transform := t; rio_shape := sh; values := v |}
    None sh r
  = Raise MissingCRS.
Proof. reflexivity. Qed.

End XArrayFacts.

Module SessionFacts.
Import Pandas GeoPandas Session.









End SessionFacts.

Module RasterFilesFacts.
Import Rasterio RasterFiles.

Lemma copy_bands_prefix (src : Dataset) (k : nat) :
  well_formed src -> (k <= count src)%nat ->
  fold_left (copy_band src) (seq 0 k) (Done (create_like src))
  = Done {| width := width src; height := height src; count := count src;
            crs := crs src; transform := transform src;
            bands := take k (bands src)
                     ++ replicate (count src - k)
                          (zeros (height src) (width src)) |}.
Proof.
  intros [Hlen Hshape] Hk. induction k as [|k IH].
  - simpl. rewrite Nat.sub_0_r. reflexivity.
  - rewrite seq_S, fold_left_app, IH by lia. simpl.
    unfold read, in_range.
    destruct (Z.leb_spec 1 (Z.of_nat k + 1)); [|lia].
    destruct (Z.leb_spec (Z.of_nat k + 1) (Z.of_nat (count src))); [|lia].
    simpl. replace (Z.to_nat (Z.of_nat k + 1 - 1)) with k by lia.
    destruct (bands src !! k) as [band|] eqn:Hband.
    2:{ apply lookup_ge_None in Hband. lia. }
    unfold write, in_range. simpl.
    destruct (Z.leb_spec 1 (Z.of_nat k + 1)); [|lia].
    destruct (Z.leb_spec (Z.of_nat k + 1) (Z.of_nat (count src))); [|lia].
    simpl. rewrite bool_decide_eq_true_2.
    2:{ rewrite Forall_forall in Hshape. apply Hshape.
        eapply list_elem_of_lookup_2. exact Hband. }
    replace (Z.to_nat (Z.of_nat k + 1 - 1)) with k by lia.
    do 2 f_equal.
    rewrite (take_S_r _ _ _ Hband).
    replace (count src - k)%nat with (S (count src - S k)) by lia.
    simpl. rewrite insert_app_r_alt by (rewrite length_take; lia).
    rewrite length_take, Nat.min_l by lia. rewrite Nat.sub_diag. simpl.
    rewrite <- app_assoc. reflexivity.
Qed.

(** X8. The loop that writes band [band_index + 1] of the source to band
    [band_index + 1] of the new file, for every [band_index] below the band
    count, never leaves the band range and copies every band: for a source
    whose bands all have the shape of the file, the new file ends up with
    exactly the bands and the metadata of the source. *)
Theorem copy_bands_copies_all (src : Dataset) :
  well_formed src -> copy_bands src = Done src.
Proof.
  intros Hwf. unfold copy_bands.
  rewrite (copy_bands_prefix src (count src) Hwf (Nat.le_refl _)).
  destruct Hwf as [Hlen _]. rewrite Nat.sub_diag. simpl.
  rewrite app_nil_r, take_ge by lia. destruct src. reflexivity.
Qed.

Lemma copy_bands_copies_all_witness : copy_bands two_bands = Done two_bands.
Proof.
  apply (copy_bands_copies_all two_bands).
  split; [reflexivity|]. repeat constructor.
Defined.

(** Reading or writing band 0, or a band past the count, is refused. *)
Example band_index_from_one :
  read two_bands 0 = IndexError 0%Z
  /\ read two_bands 3 = IndexError 3%Z
  /\ write two_bands (zeros 2 1) 0 = IndexError 0%Z.
Proof. repeat split; reflexivity. Qed.

End RasterFilesFacts.

Module ArraysFacts.
Import Arrays.

Lemma blank_below_rows (t : Q) (a : array) i row :
  blank_below t a !! i = Some row ->
  exists row0,
    a !! i = Some row0
    /\ length row = length row0
    /\ (forall j v, row0 !! j = Some v ->
          row !! j = Some (if below t v then None else v))
    /\ (forall j q, row !! j = Some (Some q) ->
          row0 !! j = Some (Some q) /\ (t <= q)%Q).
Proof.
  unfold blank_below. intros Hrow.
  apply list_lookup_fmap_Some in Hrow as (row0 & -> & Hrow0).
  exists row0. split; [exact Hrow0|]. split; [apply length_map|]. split.
  - intros j v Hv. change (map ?f row0) with (f <$> row0).
    rewrite list_lookup_fmap, Hv. reflexivity.
  - intros j q Hq. apply list_lookup_fmap_Some in Hq as (v & Hv & Hj).
    destruct (below t v) eqn:Hb; [discriminate Hv|].
    subst v. split; [exact Hj|].
    simpl in Hb. apply negb_false_iff in Hb. apply Qle_bool_iff. exact Hb.
Qed.

(** X9. The masking cell changes only its own copy.  Run in a session
    where [nairobi_elevation_data] is bound to an array, it succeeds; the
    array that was bound to the name is left as it was, the name is now
    bound to a new array with the same values, and [masked_elevation_data]
    is bound to yet another array, of the same shape, in which every value
    below the threshold (the no-data zeros too) is NaN and every other
    value is the value of the data: each value left is at least the
    threshold. *)
Theorem cell_mask_blanks_a_copy (st : state) (l : positive) (a : array) :
  names st !! "nairobi_elevation_data" = Some l ->
  heap st !! l = Some a ->
  exists st' l1 l2 masked,
    cell_mask st = Ok st'
    /\ l1 <> l /\ l2 <> l /\ l2 <> l1
    /\ (forall k b, heap st !! k = Some b -> heap st' !! k = Some b)
    /\ names st' !! "nairobi_elevation_data" = Some l1
    /\ heap st' !! l1 = Some a
    /\ names st' !! "masked_elevation_data" = Some l2
    /\ heap st' !! l2 = Some masked
    /\ length masked = length a
    /\ (forall i row, masked !! i = Some row ->
          exists row0,
            a !! i = Some row0
            /\ length row = length row0
            /\ (forall j v, row0 !! j = Some v ->
                  row !! j
                  = Some (if below elevation_threshold v then None else v))
            /\ (forall j q, row !! j = Some (Some q) ->
                  row0 !! j = Some (Some q)
                  /\ (elevation_threshold <= q)%Q)).
Proof.
  intros Hname Hheap.
  set (l1 := fresh (dom (heap st))).
  assert (Hl1 : heap st !! l1 = None)
    by (apply not_elem_of_dom; apply is_fresh).
  set (st1 := bind_new "nairobi_elevation_data" a st).
  set (l2 := fresh (dom (heap st1))).
  assert (Hl2 : heap st1 !! l2 = None)
    by (apply not_elem_of_dom; apply is_fresh).
  assert (Hl1l : l1 <> l) by congruence.
  assert (Hst1l1 : heap st1 !! l1 = Some a) by apply lookup_insert_eq.
  assert (Hl2l1 : l2 <> l1) by congruence.
  assert (Hst1l : heap st1 !! l = Some a).
  { unfold st1, bind_new. simpl. fold l1.
    rewrite lookup_insert_ne by congruence. exact Hheap. }
  assert (Hl2l : l2 <> l) by congruence.
  exists {| heap := <[l2 := blank_below elevation_threshold a]>
                      (<[l2 := a]> (heap st1));
            names := <["masked_elevation_data" := l2]> (names st1) |},
         l1, l2, (blank_below elevation_threshold a).
  split.
  - unfold cell_mask, value_of. rewrite Hname, Hheap. simpl.
    fold st1. unfold st1 at 1, bind_new at 1. simpl. fold l1.
    rewrite lookup_insert_eq, lookup_insert_eq. simpl. fold st1.
    unfold assign_nan_below, bind_new. simpl. fold l2.
    rewrite lookup_insert_eq, lookup_insert_eq. reflexivity.
  - split; [exact Hl1l|]. split; [exact Hl2l|]. split; [exact Hl2l1|].
    simpl. split.
    { intros k b Hk.
      assert (Hk1 : heap st1 !! k = Some b).
      { unfold st1, bind_new. simpl. fold l1.
        rewrite lookup_insert_ne by congruence. exact Hk. }
      rewrite insert_insert_eq, lookup_insert_ne by congruence.
      exact Hk1. }
    split.
    { rewrite lookup_insert_ne by discriminate.
      unfold st1, bind_new. simpl. apply lookup_insert_eq. }
    split.
    { rewrite insert_insert_eq. rewrite lookup_insert_ne by congruence.
      exact Hst1l1. }
    split; [apply lookup_insert_eq|].
    split; [apply lookup_insert_eq|].
    split; [unfold blank_below; apply length_map|].
    intros i row. apply blank_below_rows.
Qed.

Lemma cell_mask_blanks_a_copy_witness :
  exists st' l2,
    cell_mask cropped_session = Ok st'
    /\ heap st' !! 1%positive
       = Some [[Some 1700; Some 1850]; [Some 0; Some 1800]]%Q
    /\ names st' !! "masked_elevation_data" = Some l2
    /\ l2 <> 1%positive.
Proof.
  destruct (cell_mask_blanks_a_copy cropped_session 1%positive
              [[Some 1700; Some 1850]; [Some 0; Some 1800]]%Q
              eq_refl eq_refl)
    as (st' & l1 & l2 & masked & Hrun & _ & Hl2 & _ & Hkeep & _ & _ & Hn & _).
  exists st', l2. split; [exact Hrun|]. split; [|split; assumption].
  apply Hkeep. reflexivity.
Defined.

Example cell_mask_cropped_session :
  match cell_mask cropped_session with
  | Ok st' =>
      match names st' !! "masked_elevation_data" with
      | Some l => heap st' !! l
      | None => None
      end
  | Raise _ => None
  end
  = Some [[None; Some 1850]; [None; Some 1800]]%Q.
Proof. vm_compute. reflexivity. Qed.

End ArraysFacts.

Module GeoCellsFacts.
Import Pandas GeoPandas Session GeoCells.

(** X10. A column assignment changes the frame in place, and a copy taken
    before is a separate object.  The centroid cell leaves the frame bound
    to [gdf_paris_districts] as it was and binds [d] to a new frame with the
    same CRS and attributes and one centroid per geometry.  The area cell
    changes the object bound to [gdf_paris_districts] itself: no name is
    rebound, so every name bound to that object sees the new [area] column,
    which has one value per geometry; the geometries, the CRS, the other
    columns and the other objects stay as they were. *)
Theorem column_assignment_in_place
    (centroid : list Shapely.coord -> Shapely.coord)
    (area : list Shapely.coord -> Q)
    (st : state) (l : positive) (gdf : GeoDataFrame) :
  names st !! "gdf_paris_districts" = Some l ->
  heap st !! l = Some (GeoFrame gdf) ->
  (exists st' l',
     cell_centroids centroid st = Ok st'
     /\ l' <> l
     /\ heap st' !! l = Some (GeoFrame gdf)
     /\ names st' !! "gdf_paris_districts" = Some l
     /\ names st' !! "d" = Some l'
     /\ heap st' !! l'
        = Some (GeoFrame
                  {| crs := crs gdf;
                     geometry := map (fun g => [centroid g]) (geometry gdf);
                     attributes := attributes gdf |})
     /\ (forall k o, heap st !! k = Some o -> heap st' !! k = Some o))
  /\ (exists st' gdf' areas,
        cell_area area st = Ok st'
        /\ names st' = names st
        /\ heap st' !! l = Some (GeoFrame gdf')
        /\ crs gdf' = crs gdf /\ geometry gdf' = geometry gdf
        /\ attributes gdf' !! "area" = Some (Numeric areas)
        /\ length areas = length (geometry gdf)
        /\ (forall c, c <> "area" ->
              attributes gdf' !! c = attributes gdf !! c)
        /\ (forall k o, k <> l -> heap st !! k = Some o ->
              heap st' !! k = Some o)).
Proof.
  intros Hname Hheap. split.
  - set (l' := fresh (dom (heap st))).
    assert (Hfresh : heap st !! l' = None)
      by (apply not_elem_of_dom; apply is_fresh).
    assert (Hne : l' <> l) by congruence.
    eexists. exists l'. split.
    + unfold cell_centroids, deref. rewrite Hname, Hheap. simpl.
      unfold update, bind_new, alloc, assign. simpl. fold l'.
      rewrite lookup_insert_eq, lookup_insert_eq. simpl. reflexivity.
    + simpl. split; [exact Hne|]. split.
      { rewrite insert_insert_eq, lookup_insert_ne by congruence.
        exact Hheap. }
      split; [rewrite lookup_insert_ne by discriminate; exact Hname|].
      split; [apply lookup_insert_eq|].
      split; [rewrite insert_insert_eq; apply lookup_insert_eq|].
      intros k o Hk. rewrite insert_insert_eq.
      rewrite lookup_insert_ne by congruence. exact Hk.
  - eexists. eexists. eexists. split.
    + unfold cell_area, update. rewrite Hname, Hheap. simpl. reflexivity.
    + simpl. split; [reflexivity|].
      split; [apply lookup_insert_eq|]. simpl.
      split; [reflexivity|]. split; [reflexivity|].
      split; [apply lookup_insert_eq|].
      split; [apply length_map|]. split.
      * intros c Hc. apply lookup_insert_ne. congruence.
      * intros k o Hk Hko. rewrite lookup_insert_ne by congruence.
        exact Hko.
Qed.

Lemma column_assignment_in_place_witness :
  exists st' gdf' areas,
    cell_area (fun _ => 4%Q) paris_session = Ok st'
    /\ names st' = names paris_session
    /\ heap st' !! 1%positive = Some (GeoFrame gdf')
    /\ attributes gdf' !! "area" = Some (Numeric areas)
    /\ length areas = 1%nat.
Proof.
  destruct (column_assignment_in_place (fun _ => (1, 1)%Q) (fun _ => 4%Q)
              paris_session 1%positive _ eq_refl eq_refl)
    as [_ (st' & gdf' & areas & Hrun & Hnames & Hl & _ & _ & Ha & Hlen & _)].
  exists st', gdf', areas. repeat split; assumption.
Defined.

End GeoCellsFacts.

Module AffinityFacts.
Import Shapely Affinity ShapelyFacts.
Local Open Scope Q_scope.

Example translate_notebook :
  translate_point point 1 1 = (1 + 1, 1 + 1)
  /\ translate linestring 1 1 = [(0 + 1, 0 + 1); (1 + 1, 1 + 1); (2 + 1, 2 + 1)].
Proof. split; reflexivity. Qed.

Section Translation.
Variables dx dy : Q.

Local Abbreviation tr := (fun p : coord => translate_point p dx dy).
Local Abbreviation tre := (fun e : coord * coord =>
                         (translate_point e.1 dx dy,
                          translate_point e.2 dx dy)).
Local Abbreviation T p := (translate_point p dx dy).
Local Abbreviation TE e := (translate_point (fst e) dx dy,
                            translate_point (snd e) dx dy).






















End Translation.


End AffinityFacts.
